(** * librespot-python: CDN streaming and AES-CTR chunk decryption

    A shallow embedding of
      - [librespot/audio/decrypt/AesAudioDecrypt.py]
      - [librespot/audio/cdn/CdnManager.py]
    together with the Python semantics these two files rely on
    (exceptions, true division on [int], [int(str)], list indexing).

    Conventions.
      - A Python [int] is a [Z]; a Python [bytes]/[bytearray] is a
        [list byte]; a Python [str] is a [string] whose characters are
        the code points below 256.
      - A call that may raise returns a [result]; a method that mutates
        [self] returns the new object next to its outcome.
      - Third-party calls (the HTTP client, the AES cipher, [urllib.parse])
        are operations of a type class: the program is verified for every
        implementation of them.  Exceptions these libraries raise on their
        own account (a connection that fails, a key of the wrong length)
        are not modelled, but for the [ValueError] of [urlparse], which
        depends on the URL alone; what the program raises is.
      - Wall-clock readings are arguments: [now_ms] and [elapsed_ns]. *)

From Stdlib Require Import ZArith Lia List Ascii Bool.
From Stdlib.Strings Require Import Byte.
From Stdlib.Floats Require Import SpecFloat.
From stdpp Require Import base option list strings gmap.

Local Open Scope Z_scope.

(** ** Python semantics *)

Module Py.

(** The values exceptions and log records are built with.  The text of
    [template.format(args)] is kept as the template and its arguments. *)
#[warnings="-register-all"] Inductive value : Type :=
| VNone
| VInt (n : Z)
| VBool (b : bool)
| VStr (s : string)
| VBytes (b : list byte)
| VFormat (template : string) (args : list value).

Inductive exn : Type :=
| IOError (a : value)
| RuntimeError (a : value)
| CdnException (a : value)
| ValueError
| TypeError
| IndexError
| AttributeError
| OverflowError
| ZeroDivisionError.

Inductive result (A : Type) : Type :=
| Ok (a : A)
| Raise (e : exn).
Arguments Ok {A} a.
Arguments Raise {A} e.

Definition bind {A B} (r : result A) (k : A -> result B) : result B :=
  match r with
  | Ok a => k a
  | Raise e => Raise e
  end.

Definition raises {A} (r : result A) : Prop := exists e, r = Raise e.

(** *** [float] and [int / int]

    A finite [float] is [mantissa * 2 ^ exponent].  [a / b] on two
    [int]s is the IEEE-754 binary64 number nearest to the exact
    quotient, ties to even; it raises [ZeroDivisionError] for [b = 0]
    and [OverflowError] when the rounded quotient is not finite. *)
Record float : Type := Float { mantissa : Z; exponent : Z }.

(** nearest integer to [n / d], ties to even ([0 <= n], [0 < d]) *)
Definition round_half_even (n d : Z) : Z :=
  let q := n / d in
  let r := n mod d in
  if 2 * r <? d then q
  else if d <? 2 * r then q + 1
  else if Z.even q then q else q + 1.

(** [floor (log2 (a / b))] for [0 < a] and [0 < b] *)
Definition floor_log2_ratio (a b : Z) : Z :=
  let d := Z.log2 a - Z.log2 b in
  if a * 2 ^ Z.max 0 (- d) <? b * 2 ^ Z.max 0 d then d - 1 else d.

(** the rounded quotient of two positive integers: 53 significant bits,
    the exponent never below that of the subnormal numbers *)
Definition truediv_pos (a b : Z) : result float :=
  let e := Z.max (floor_log2_ratio a b - 52) (-1074) in
  let m := round_half_even (a * 2 ^ Z.max 0 (- e)) (b * 2 ^ Z.max 0 e) in
  if 2 ^ 1024 <=? m * 2 ^ Z.max 0 e then Raise OverflowError
  else Ok (Float m e).

Definition truediv (a b : Z) : result float :=
  if b =? 0 then Raise ZeroDivisionError
  else if a =? 0 then Ok (Float 0 0)
  else
    match truediv_pos (Z.abs a) (Z.abs b) with
    | Ok f =>
        if Z.sgn a =? Z.sgn b then Ok f
        else Ok (Float (- mantissa f) (exponent f))
    | Raise e => Raise e
    end.

(** [int(x)] on a float: truncation toward zero *)
Definition int_of_float (x : float) : Z :=
  if 0 <=? exponent x then mantissa x * 2 ^ exponent x
  else Z.quot (mantissa x) (2 ^ (- exponent x)).

(** [math.ceil(x)] *)
Definition math_ceil (x : float) : Z :=
  if 0 <=? exponent x then mantissa x * 2 ^ exponent x
  else - ((- mantissa x) / 2 ^ (- exponent x)).

(** *** [str]

    Positions are counted from the front; [None] from [str_index] is
    the [ValueError] of [s.index(c)]. *)
Fixpoint str_index (c : ascii) (s : string) : option nat :=
  match s with
  | EmptyString => None
  | String x t =>
      if Ascii.eqb x c then Some 0%nat else S <$> str_index c t
  end.

(** [s[:n]] *)
Fixpoint str_take (n : nat) (s : string) : string :=
  match n, s with
  | S n', String x t => String x (str_take n' t)
  | _, _ => EmptyString
  end.

(** [s[n:]] *)
Fixpoint str_drop (n : nat) (s : string) : string :=
  match n, s with
  | S n', String _ t => str_drop n' t
  | _, _ => s
  end.

(** [s.split(sep)] for a one-character separator: never empty *)
Fixpoint str_split (sep : ascii) (s : string) : list string :=
  match s with
  | EmptyString => [EmptyString]
  | String x t =>
      if Ascii.eqb x sep then EmptyString :: str_split sep t
      else
        match str_split sep t with
        | h :: r => String x h :: r
        | [] => [String x EmptyString]
        end
  end.

Fixpoint str_len (s : string) : nat :=
  match s with
  | EmptyString => 0
  | String _ t => S (str_len t)
  end.

Fixpoint str_chars (s : string) : list ascii :=
  match s with
  | EmptyString => []
  | String x t => x :: str_chars t
  end.

(** *** [int(s)] on a [str], base 10

    Surrounding white space is dropped, one sign is allowed, and the
    digits may be separated by single underscores.  White space is what
    CPython accepts around a number among the code points below 256:
    tab, line feed, vertical tab, form feed, carriage return, space,
    next-line (0x85) and no-break space (0xA0).  The limit on the
    number of digits of recent interpreters is not modelled. *)
Definition is_space (c : ascii) : bool :=
  let n := N_of_ascii c in
  ((9 <=? n) && (n <=? 13) || (n =? 32) || (n =? 133) || (n =? 160))%N.

Definition digit_value (c : ascii) : option Z :=
  let n := N_of_ascii c in
  if ((48 <=? n) && (n <=? 57))%N then Some (Z.of_N n - 48) else None.

Fixpoint lstrip (s : list ascii) : list ascii :=
  match s with
  | c :: t => if is_space c then lstrip t else s
  | [] => []
  end.

Definition strip (s : list ascii) : list ascii :=
  rev (lstrip (rev (lstrip s))).

(** [after_digit] tells whether the previous character was a digit: an
    underscore is accepted only between two digits. *)
Fixpoint parse_digits (acc : Z) (after_digit : bool) (s : list ascii)
  : option Z :=
  match s with
  | [] => if after_digit then Some acc else None
  | c :: t =>
      match digit_value c with
      | Some d => parse_digits (10 * acc + d) true t
      | None =>
          if Ascii.eqb c "_" && after_digit then parse_digits acc false t
          else None
      end
  end.

Definition parse_int (s : string) : option Z :=
  match strip (str_chars s) with
  | c :: t =>
      if Ascii.eqb c "-" then Z.opp <$> parse_digits 0 false t
      else if Ascii.eqb c "+" then parse_digits 0 false t
      else parse_digits 0 false (c :: t)
  | [] => None
  end.

(** [int(s)]: [ValueError] when [s] is not a number *)
Definition int_of_str (s : string) : result Z :=
  match parse_int s with
  | Some n => Ok n
  | None => Raise ValueError
  end.

(** *** [list]

    [l[i]] and [l[i] = v]: an index below zero counts from the end, an
    index outside [-len .. len - 1] raises [IndexError]. *)
Definition list_index {A} (l : list A) (i : Z) : option nat :=
  let n := Z.of_nat (length l) in
  if (0 <=? i) && (i <? n) then Some (Z.to_nat i)
  else if (- n <=? i) && (i <? 0) then Some (Z.to_nat (n + i))
  else None.

Definition list_get {A} (l : list A) (i : Z) : result A :=
  match list_index l i with
  | Some k =>
      match l !! k with
      | Some x => Ok x
      | None => Raise IndexError
      end
  | None => Raise IndexError
  end.

Definition list_set {A} (l : list A) (i : Z) (v : A) : result (list A) :=
  match list_index l i with
  | Some k => Ok (<[k := v]> l)
  | None => Raise IndexError
  end.

(** [b[i:i + count]] for [0 <= i] and [0 <= count] *)
Definition slice {A} (l : list A) (i count : nat) : list A :=
  take count (drop i l).

(** [range(0, stop, step)] for [0 < step] *)
Definition range_step (stop step : nat) : list nat :=
  (fun k => k * step)%nat <$> seq 0 (Nat.div (stop + step - 1) step).

(** [x / b] for a float [x] and an [int] [b] with [1 <= b <= 2 ^ 53],
    which a float holds exactly: the binary64 number nearest to the exact
    quotient of the two.  The quotient is no larger than [x], so it is
    finite. *)
Definition float_div_int (x : float) (b : Z) : result float :=
  truediv (mantissa x * 2 ^ Z.max 0 (exponent x))
    (b * 2 ^ Z.max 0 (- exponent x)).

(** The same quotient through the Standard Library's specification of
    binary64 division, for cross-checking [truediv] on samples. *)
Definition spec_truediv (a b : positive) : spec_float :=
  SFdiv 53 1024 (S754_finite false a 0) (S754_finite false b 0).

Definition same_value (f : result float) (s : spec_float) : bool :=
  match f, s with
  | Ok f, S754_finite false m e =>
      (mantissa f * 2 ^ (exponent f - Z.min (exponent f) e)
       =? Z.pos m * 2 ^ (e - Z.min (exponent f) e))
  | Ok f, S754_zero false => mantissa f =? 0
  | Raise OverflowError, S754_infinity false => true
  | _, _ => false
  end.

End Py.
Import Py.

(** ** External collaborators *)

(** [librespot.audio.storage.ChannelManager]: only its constant
    [CHUNK_SIZE] is used, and its value is not part of these sources. *)
Class ChannelManager : Type := { CHUNK_SIZE : Z }.

(** [Cryptodome]: [AES_CTR_decrypt key iv data] is
    [AES.new(key=key, mode=AES.MODE_CTR,
             counter=Counter.new(128, initial_value=iv)).decrypt(data)].
    The result may have any length: the program checks it. *)
Class Cryptodome : Type :=
  { AES_CTR_decrypt : list byte -> Z -> list byte -> list byte }.

(** [urllib.parse]: [urlparse(url).query] and [parse_qs(query)].
    [urlparse] raises [ValueError] on a URL it refuses, such as one with
    an opening bracket in its host and no closing one; that is [None]
    here. *)
Class UrlLib : Type :=
  { urlparse_query : string -> option string;
    parse_qs : string -> gmap string (list string) }.

(** An HTTP response as the source reads it: [content] is [None] for
    Python's [None], and [headers !! name] is [headers.get(name)]. *)
Record Response : Type :=
  { status_code : Z;
    content : option (list byte);
    headers : gmap string string }.

(** [StorageResolve_pb2.StorageResolveResponse] after [ParseFromString]. *)
Inductive ResolveResult : Type := CDN | STORAGE | RESTRICTED.

Record StorageResolveResponse : Type :=
  { result_code : ResolveResult;
    cdnurl : list string }.

(** [librespot.core.Session] and what is reached through it.
      - [client_get url range] is [session.client().get(url)] when [range]
        is [None], and the same call with the header
        [Range: bytes=<range_start>-<range_end>] otherwise;
      - [head_url file_id] is the [head-files-url] user attribute with
        [{file_id}] replaced by the hexadecimal file id;
      - [storage_resolve file_id] is the answer of [session.api().send] to
        the GET of [/storage-resolve/files/audio/interactive/<hex file id>];
      - [parse_resolve] is the protobuf parser;
      - [randbelow n] is the draw [random.choice] makes among [n] items. *)
Class Session : Type :=
  { client_get : string -> option (option Z * option Z) -> Response;
    head_url : list byte -> string;
    storage_resolve : option (list byte) -> Response;
    parse_resolve : list byte -> StorageResolveResponse;
    randbelow : nat -> nat }.

(** Records of the two loggers, in the order they are emitted. *)
Inductive log_record : Type :=
| Debug (message : value)
| Warning (message : value).

(** ** librespot/audio/decrypt/AesAudioDecrypt.py *)

Module AesAudioDecrypt.
Section WithLibraries.
Context {channels : ChannelManager} {crypto : Cryptodome}.

Definition audio_aes_iv : list byte :=
  [x72; xe0; x67; xfb; xdd; xcb; xcf; x77;
   xeb; xe8; xbc; x64; x3f; x63; x0d; x93].

(** [int.from_bytes(b, "big")] *)
Definition int_from_bytes_big (b : list byte) : Z :=
  fold_left (fun acc x => acc * 256 + Z.of_N (Byte.to_N x)) b 0.

Definition iv_int : Z := int_from_bytes_big audio_aes_iv.
Definition iv_diff : Z := 256.

Record t : Type :=
  { key : list byte;
    decrypt_count : Z;
    decrypt_total_time : Z }.

(** [AesAudioDecrypt(key)] *)
Definition new (k : list byte) : t :=
  {| key := k; decrypt_count := 0; decrypt_total_time := 0 |}.

(** The local variables of the loop of [decrypt_chunk].  [ciphers]
    records every cipher the loop creates: the [initial_value] of its
    counter and the data it is given to decrypt. *)
Record locals : Type :=
  { new_buffer : list byte;
    iv : Z;
    ciphers : list (Z * list byte) }.

(** The body of [for i in range(0, len(buffer), 4096)], run over the
    offsets that are left; the exception, if one is raised, comes with
    the locals at that point. *)
Fixpoint decrypt_loop (self : t) (buffer : list byte) (offsets : list nat)
    (l : locals) : locals * option exn :=
  match offsets with
  | [] => (l, None)
  | i :: rest =>
      let count := Z.min 4096 (Z.of_nat (length buffer) - Z.of_nat i) in
      let block := slice buffer i (Z.to_nat count) in
      let decrypted_buffer := AES_CTR_decrypt (key self) (iv l) block in
      let l1 := {| new_buffer := new_buffer l ++ decrypted_buffer;
                   iv := iv l;
                   ciphers := ciphers l ++ [(iv l, block)] |} in
      if negb (count =? Z.of_nat (length decrypted_buffer)) then
        (l1, Some (RuntimeError
                     (VFormat "Couldn't process all data, actual: {}, expected: {}"
                        [VInt (Z.of_nat (length decrypted_buffer)); VInt count])))
      else
        decrypt_loop self buffer rest
          {| new_buffer := new_buffer l1;
             iv := iv l1 + iv_diff;
             ciphers := ciphers l1 |}
  end.

(** What one call of [decrypt_chunk] does: the object afterwards, the
    value returned or the exception raised, and the ciphers created. *)
Record run : Type :=
  { self_after : t;
    returned : result (list byte);
    created : list (Z * list byte) }.

(** [elapsed_ns] is [time.time_ns() - start] as read after the loop. *)
Definition decrypt_chunk (self : t) (chunk_index : Z) (buffer : list byte)
    (elapsed_ns : Z) : run :=
  match truediv (CHUNK_SIZE * chunk_index) 16 with
  | Raise e => {| self_after := self; returned := Raise e; created := [] |}
  | Ok q =>
      let start := {| new_buffer := [];
                      iv := iv_int + int_of_float q;
                      ciphers := [] |} in
      match decrypt_loop self buffer (range_step (length buffer) 4096) start with
      | (l, Some e) =>
          {| self_after := self; returned := Raise e; created := ciphers l |}
      | (l, None) =>
          {| self_after :=
               {| key := key self;
                  decrypt_count := decrypt_count self + 1;
                  decrypt_total_time := decrypt_total_time self + elapsed_ns |};
             returned := Ok (new_buffer l);
             created := ciphers l |}
      end
  end.

(** [decrypt_time_ms]: the average time of a call, in milliseconds. *)
Definition decrypt_time_ms (self : t) : result Z :=
  if decrypt_count self =? 0 then Ok 0
  else
    bind (truediv (decrypt_total_time self) (decrypt_count self)) (fun average =>
    bind (float_div_int average 1000000) (fun ms =>
    Ok (int_of_float ms))).

End WithLibraries.
End AesAudioDecrypt.

(** ** librespot/audio/cdn/CdnManager.py *)

Module CdnManager.

(** What a call of a method leaves behind: the object, the value returned
    or the exception raised, the log records written, and the file ids
    [get_audio_url] was called with. *)
Record effect (Obj A : Type) : Type :=
  { after : Obj;
    outcome : result A;
    logged : list log_record;
    resolved : list (option (list byte)) }.
Arguments after {Obj A} e.
Arguments outcome {Obj A} e.
Arguments logged {Obj A} e.
Arguments resolved {Obj A} e.

Section Resolver.
Context {urllib : UrlLib} {session : Session}.

(** *** [CdnManager.get_head] *)
Definition get_head (file_id : list byte) : result (list byte) :=
  let resp := client_get (head_url file_id) None in
  if negb (status_code resp =? 200) then
    Raise (IOError (VFormat "{}" [VInt (status_code resp)]))
  else
    match content resp with
    | None => Raise (IOError (VStr "Response body is empty!"))
    | Some body => Ok body
    end.

(** *** [CdnManager.get_audio_url] *)

(** [random.choice(seq)]: [IndexError] on an empty sequence, else the
    item at the draw, which is below the length. *)
Definition random_choice {A} (seq : list A) : result A :=
  match seq !! (randbelow (length seq) mod length seq)%nat with
  | Some x => Ok x
  | None => Raise IndexError
  end.

Definition result_number (r : ResolveResult) : Z :=
  match r with
  | CDN => 0
  | STORAGE => 1
  | RESTRICTED => 3
  end.

Definition file_id_value (file_id : option (list byte)) : value :=
  match file_id with
  | Some b => VBytes b
  | None => VNone
  end.

Definition get_audio_url (file_id : option (list byte))
  : result string * list log_record :=
  let resp := storage_resolve file_id in
  if negb (status_code resp =? 200) then
    (Raise (IOError (VInt (status_code resp))), [])
  else
    match content resp with
    | None => (Raise (IOError (VStr "Response body is empty!")), [])
    | Some body =>
        let proto := parse_resolve body in
        match result_code proto with
        | CDN =>
            match random_choice (cdnurl proto) with
            | Ok url =>
                (Ok url,
                 [Debug (VFormat "Fetched CDN url for {}: {}"
                           [file_id_value file_id; VStr url])])
            | Raise e => (Raise e, [])
            end
        | r =>
            (Raise (CdnException
                      (VFormat "Could not retrieve CDN url! result: {}"
                         [VInt (result_number r)])), [])
        end
    end.

(** *** [CdnManager.CdnUrl]

    An attribute that has not been assigned yet is [None]; reading it
    raises [AttributeError].  [__fileId] is assigned by [__init__] before
    anything else, and may be Python's [None], which is [None] here. *)
Record CdnUrl : Type :=
  { __fileId : option (list byte);
    _expiration : option Z;
    _url : option string }.

Definition with_url (self : CdnUrl) (u : string) : CdnUrl :=
  {| __fileId := __fileId self; _expiration := _expiration self; _url := Some u |}.

Definition with_expiration (self : CdnUrl) (e : Z) : CdnUrl :=
  {| __fileId := __fileId self; _expiration := Some e; _url := _url self |}.

(** The [for s in split] loop of [set_url]: the value of [expire_at] when
    the loop is left, or the [ValueError] of [int]. *)
Fixpoint find_expire_at (split : list string) : result (option Z) :=
  match split with
  | [] => Ok None
  | s :: rest =>
      match str_index "=" s with
      | None => find_expire_at rest
      | Some i =>
          if String.eqb (str_take i s) "exp" then
            bind (int_of_str (str_drop (S i) s)) (fun n => Ok (Some n))
          else find_expire_at rest
      end
  end.

(** [token_str]: [str(token_list[0])], or the empty string when
    [token_list] is [None] (the [TypeError] that is caught). *)
Definition token_str_of (token_list : option (list string)) : result string :=
  match token_list with
  | None => Ok EmptyString
  | Some l => list_get l 0
  end.

Definition set_url (self : CdnUrl) (url : string) : effect CdnUrl unit :=
  let self := with_url self url in
  match __fileId self with
  | Some _ =>
      match urlparse_query url with
      | None =>
          {| after := self; outcome := Raise ValueError;
             logged := []; resolved := [] |}
      | Some token_url_query =>
          let token_query := parse_qs token_url_query in
          let token_list := token_query !! "__token__" in
          match token_str_of token_list with
          | Raise e =>
              {| after := self; outcome := Raise e;
                 logged := []; resolved := [] |}
          | Ok token_str =>
              if negb (String.eqb token_str "None")
                 && negb (Nat.eqb (str_len token_str) 0)
              then
                match find_expire_at (str_split "~" token_str) with
                | Raise e =>
                    {| after := self; outcome := Raise e;
                       logged := []; resolved := [] |}
                | Ok None =>
                    {| after := with_expiration self (-1);
                       outcome := Ok tt;
                       logged :=
                         [Warning (VFormat "Invalid __token__ in CDN url: {}"
                                     [VStr url])];
                       resolved := [] |}
                | Ok (Some expire_at) =>
                    {| after := with_expiration self (expire_at * 1000);
                       outcome := Ok tt; logged := []; resolved := [] |}
                end
              else
                match str_index "_" token_url_query with
                | None =>
                    {| after := with_expiration self (-1);
                       outcome := Ok tt;
                       logged :=
                         [Warning
                            (VFormat "Couldn't extract expiration, invalid parameter in CDN url: {}"
                               [VStr url])];
                       resolved := [] |}
                | Some i =>
                    match int_of_str (str_take i token_url_query) with
                    | Raise e =>
                        {| after := self; outcome := Raise e;
                           logged := []; resolved := [] |}
                    | Ok n =>
                        {| after := with_expiration self (n * 1000);
                           outcome := Ok tt; logged := []; resolved := [] |}
                    end
                end
          end
      end
  | None =>
      {| after := with_expiration self (-1);
         outcome := Ok tt; logged := []; resolved := [] |}
  end.

(** [CdnUrl(cdn_manager, file_id, url)]: the object exists for the caller
    only when [__init__] returns. *)
Definition CdnUrl_init (file_id : option (list byte)) (url : string)
  : effect CdnUrl unit :=
  set_url {| __fileId := file_id; _expiration := None; _url := None |} url.

(** What [CdnUrl.url] returns: a string in the first branch, the bound
    method [self.url] in the last line. *)
Inductive url_value : Type :=
| UrlString (s : string)
| BoundMethod_url.

(** [now_ms] is [int(time.time() * 1000)]. *)
Definition url (self : CdnUrl) (now_ms : Z) : effect CdnUrl url_value :=
  match _expiration self with
  | None =>
      {| after := self; outcome := Raise AttributeError;
         logged := []; resolved := [] |}
  | Some expiration =>
      if expiration =? -1 then
        match _url self with
        | Some u =>
            {| after := self; outcome := Ok (UrlString u);
               logged := []; resolved := [] |}
        | None =>
            {| after := self; outcome := Raise AttributeError;
               logged := []; resolved := [] |}
        end
      else if expiration <=? now_ms + 5 * 60 * 1000 then
        match get_audio_url (__fileId self) with
        | (Ok fresh, l) =>
            {| after := with_url self fresh; outcome := Ok BoundMethod_url;
               logged := l; resolved := [__fileId self] |}
        | (Raise e, l) =>
            {| after := self; outcome := Raise e;
               logged := l; resolved := [__fileId self] |}
        end
      else
        {| after := self; outcome := Ok BoundMethod_url;
           logged := []; resolved := [] |}
  end.

End Resolver.

(** *** [CdnManager.InternalResponse] *)
Module InternalResponse.
Record t : Type :=
  { _buffer : list byte;
    _headers : gmap string string }.
End InternalResponse.

(** *** [CdnManager.Streamer] *)

(** Modelled from the spec: [librespot.audio.StreamId] is not among the
    sources; the spec gives it as a tagged variant, a file id or an
    episode gid, of which exactly one is set. *)
Inductive StreamId : Type :=
| File (file_id : list byte)
| Episode (episode_gid : string).

(** Modelled from the spec: [NoopAudioDecrypt] is not among the sources;
    the spec gives it as the pass-through variant, which returns its input
    unchanged and carries no key.  [AudioDecrypt] is one of the two
    decryptors a [Streamer] is built with. *)
Inductive AudioDecrypt : Type :=
| NoopAudioDecrypt
| AesDecrypt (d : AesAudioDecrypt.t).

(** Modelled from the spec: [AbsChunkedInputStream], the base class of
    [InternalStream], is not among the sources.  The spec gives it a
    closed flag, set by closing the stream, and a notification that sets
    the available bit of a chunk and wakes the reader blocked on it;
    [notified] lists the chunks announced so far. *)
Record InternalStream : Type :=
  { closed : bool;
    notified : list Z }.

(** The attributes [__init__] assigns after the first request are [None]
    until they are assigned.  [_session], [_audioFormat] and
    [_haltListener] are handles the methods below only pass on; of the
    session, the records written to its logger are kept. *)
Record Streamer : Type :=
  { _streamId : StreamId;
    _audioDecrypt : AudioDecrypt;
    _cdnUrl : CdnUrl;
    _size : option Z;
    _chunks : option Z;
    _available : option (list bool);
    _requested : option (list bool);
    _buffer : option (list (list byte));
    _internalStream : option InternalStream;
    session_log : list log_record }.

Definition set_audioDecrypt (self : Streamer) (d : AudioDecrypt) : Streamer :=
  {| _streamId := _streamId self; _audioDecrypt := d;
     _cdnUrl := _cdnUrl self; _size := _size self; _chunks := _chunks self;
     _available := _available self; _requested := _requested self;
     _buffer := _buffer self; _internalStream := _internalStream self;
     session_log := session_log self |}.

Definition set_size (self : Streamer) (n : Z) : Streamer :=
  {| _streamId := _streamId self; _audioDecrypt := _audioDecrypt self;
     _cdnUrl := _cdnUrl self; _size := Some n; _chunks := _chunks self;
     _available := _available self; _requested := _requested self;
     _buffer := _buffer self; _internalStream := _internalStream self;
     session_log := session_log self |}.

Definition set_chunks (self : Streamer) (n : Z) : Streamer :=
  {| _streamId := _streamId self; _audioDecrypt := _audioDecrypt self;
     _cdnUrl := _cdnUrl self; _size := _size self; _chunks := Some n;
     _available := _available self; _requested := _requested self;
     _buffer := _buffer self; _internalStream := _internalStream self;
     session_log := session_log self |}.

Definition set_available (self : Streamer) (l : list bool) : Streamer :=
  {| _streamId := _streamId self; _audioDecrypt := _audioDecrypt self;
     _cdnUrl := _cdnUrl self; _size := _size self; _chunks := _chunks self;
     _available := Some l; _requested := _requested self;
     _buffer := _buffer self; _internalStream := _internalStream self;
     session_log := session_log self |}.

Definition set_requested (self : Streamer) (l : list bool) : Streamer :=
  {| _streamId := _streamId self; _audioDecrypt := _audioDecrypt self;
     _cdnUrl := _cdnUrl self; _size := _size self; _chunks := _chunks self;
     _available := _available self; _requested := Some l;
     _buffer := _buffer self; _internalStream := _internalStream self;
     session_log := session_log self |}.

Definition set_buffer (self : Streamer) (l : list (list byte)) : Streamer :=
  {| _streamId := _streamId self; _audioDecrypt := _audioDecrypt self;
     _cdnUrl := _cdnUrl self; _size := _size self; _chunks := _chunks self;
     _available := _available self; _requested := _requested self;
     _buffer := Some l; _internalStream := _internalStream self;
     session_log := session_log self |}.

Definition set_internalStream (self : Streamer) (i : InternalStream)
  : Streamer :=
  {| _streamId := _streamId self; _audioDecrypt := _audioDecrypt self;
     _cdnUrl := _cdnUrl self; _size := _size self; _chunks := _chunks self;
     _available := _available self; _requested := _requested self;
     _buffer := _buffer self; _internalStream := Some i;
     session_log := session_log self |}.

Definition log_debug (self : Streamer) (message : value) : Streamer :=
  {| _streamId := _streamId self; _audioDecrypt := _audioDecrypt self;
     _cdnUrl := _cdnUrl self; _size := _size self; _chunks := _chunks self;
     _available := _available self; _requested := _requested self;
     _buffer := _buffer self; _internalStream := _internalStream self;
     session_log := session_log self ++ [Debug message] |}.

(** Modelled from the spec: [librespot.common.Utils.split] is not among
    the sources; the spec reads the total of the header
    [<start>-<end>/<total>] as what follows the slash, which is the
    second item of [s.split(c)]. *)
Definition Utils_split (s : string) (c : ascii) : list string :=
  str_split c s.

Section Streaming.
Context {channels : ChannelManager} {crypto : Cryptodome} {session : Session}.

(** [self._audioDecrypt.decrypt_chunk(chunk_index, chunk)] *)
Definition audio_decrypt_chunk (d : AudioDecrypt) (chunk_index : Z)
    (chunk : list byte) (elapsed_ns : Z)
  : AudioDecrypt * result (list byte) :=
  match d with
  | NoopAudioDecrypt => (NoopAudioDecrypt, Ok chunk)
  | AesDecrypt a =>
      let r := AesAudioDecrypt.decrypt_chunk a chunk_index chunk elapsed_ns in
      (AesDecrypt (AesAudioDecrypt.self_after r), AesAudioDecrypt.returned r)
  end.

Definition describe (self : Streamer) : value :=
  match _streamId self with
  | Episode gid => VFormat "episode_gid: {}" [VStr gid]
  | File file_id => VFormat "file_id: {}" [VBytes file_id]
  end.

(** Modelled from the spec: [notify_chunk_available] of the missing base
    class sets the available bit of the chunk and notifies the reader. *)
Definition notify_chunk_available (self : Streamer) (index : Z)
  : Streamer * result unit :=
  match _available self, _internalStream self with
  | Some available, Some stream =>
      match list_set available index true with
      | Ok available' =>
          (set_internalStream (set_available self available')
             {| closed := closed stream;
                notified := notified stream ++ [index] |},
           Ok tt)
      | Raise e => (self, Raise e)
      end
  | _, _ => (self, Raise AttributeError)
  end.

Definition write_chunk (self : Streamer) (chunk : list byte)
    (chunk_index : Z) (cached : bool) (elapsed_ns : Z)
  : Streamer * result unit :=
  match _internalStream self with
  | None => (self, Raise AttributeError)
  | Some stream =>
      if closed stream then (self, Ok tt)
      else
        match _chunks self with
        | None => (self, Raise AttributeError)
        | Some chunks =>
            let self :=
              log_debug self
                (VFormat "Chunk {}/{} completed, cached: {}, stream: {}"
                   [VInt (chunk_index + 1); VInt chunks; VBool cached;
                    describe self]) in
            let '(d, decrypted) :=
              audio_decrypt_chunk (_audioDecrypt self) chunk_index chunk
                elapsed_ns in
            let self := set_audioDecrypt self d in
            match decrypted with
            | Raise e => (self, Raise e)
            | Ok data =>
                match _buffer self with
                | None => (self, Raise AttributeError)
                | Some buffer =>
                    match list_set buffer chunk_index data with
                    | Raise e => (self, Raise e)
                    | Ok buffer' =>
                        notify_chunk_available (set_buffer self buffer')
                          chunk_index
                    end
                end
            end
        end
  end.

Definition request (self : Streamer) (chunk range_start range_end : option Z)
  : result InternalResponse.t :=
  match chunk, range_start, range_end with
  | None, None, None => Raise TypeError
  | _, _, _ =>
      let '(range_start, range_end) :=
        match chunk with
        | Some c => (Some (CHUNK_SIZE * c), Some ((c + 1) * CHUNK_SIZE - 1))
        | None => (range_start, range_end)
        end in
      match _url (_cdnUrl self) with
      | None => Raise AttributeError
      | Some u =>
          let resp := client_get u (Some (range_start, range_end)) in
          if negb (status_code resp =? 206) then
            Raise (IOError (VInt (status_code resp)))
          else
            match content resp with
            | None => Raise (IOError (VStr "Response body is empty!"))
            | Some body =>
                Ok {| InternalResponse._buffer := body;
                      InternalResponse._headers := headers resp |}
            end
      end
  end.

Definition request_chunk (self : Streamer) (index : Z) (elapsed_ns : Z)
  : Streamer * result unit :=
  match request self (Some index) None None with
  | Raise e => (self, Raise e)
  | Ok resp =>
      write_chunk self (InternalResponse._buffer resp) index false elapsed_ns
  end.

(** [Streamer(session, stream_id, audio_format, cdn_url, cache,
    audio_decrypt, halt_listener)]: the object as [__init__] leaves it and
    whether [__init__] returns; the caller is handed the object only when
    it does. *)
Definition Streamer_init (stream_id : StreamId) (cdn_url : CdnUrl)
    (audio_decrypt : AudioDecrypt) (elapsed_ns : Z)
  : Streamer * result unit :=
  let self :=
    {| _streamId := stream_id; _audioDecrypt := audio_decrypt;
       _cdnUrl := cdn_url; _size := None; _chunks := None;
       _available := None; _requested := None; _buffer := None;
       _internalStream := None; session_log := [] |} in
  match request self None (Some 0) (Some (CHUNK_SIZE - 1)) with
  | Raise e => (self, Raise e)
  | Ok resp =>
      match InternalResponse._headers resp !! "Content-Range" with
      | None => (self, Raise (IOError (VStr "Missing Content-Range header!")))
      | Some content_range =>
          let split := Utils_split content_range "/" in
          match bind (list_get split 1) int_of_str with
          | Raise e => (self, Raise e)
          | Ok size =>
              let self := set_size self size in
              match truediv size CHUNK_SIZE with
              | Raise e => (self, Raise e)
              | Ok quotient =>
                  let chunks := math_ceil quotient in
                  let self := set_chunks self chunks in
                  let first_chunk := InternalResponse._buffer resp in
                  let self :=
                    set_available self (replicate (Z.to_nat chunks) false) in
                  let self :=
                    set_requested self (replicate (Z.to_nat chunks) false) in
                  let self :=
                    set_buffer self (replicate (Z.to_nat chunks) []) in
                  let self :=
                    set_internalStream self
                      {| closed := false; notified := [] |} in
                  match list_set (replicate (Z.to_nat chunks) false) 0 true with
                  | Raise e => (self, Raise e)
                  | Ok requested =>
                      write_chunk (set_requested self requested)
                        first_chunk 0 false elapsed_ns
                  end
              end
          end
      end
  end.

(** [Streamer.stream()]: the stream object is reached through a
    constructed [Streamer] only. *)
Definition stream (self : Streamer) : result InternalStream :=
  match _internalStream self with
  | Some s => Ok s
  | None => Raise AttributeError
  end.

End Streaming.

(** *** [CdnManager.stream_file] and [CdnManager.stream_external_episode]

    The arguments are evaluated in order, so the [CdnUrl] is built before
    the [Streamer]; the caller gets the [Streamer] only when both
    constructors return. *)
Section Factory.
Context {channels : ChannelManager} {crypto : Cryptodome} {urllib : UrlLib}
  {session : Session}.

Definition construct (stream_id : StreamId) (cdn_url : effect CdnUrl unit)
    (audio_decrypt : AudioDecrypt) (elapsed_ns : Z) : result Streamer :=
  match outcome cdn_url with
  | Raise e => Raise e
  | Ok _ =>
      match Streamer_init stream_id (after cdn_url) audio_decrypt elapsed_ns with
      | (self, Ok _) => Ok self
      | (_, Raise e) => Raise e
      end
  end.

Definition stream_external_episode (episode_gid : string)
    (external_url : string) (elapsed_ns : Z) : result Streamer :=
  construct (Episode episode_gid) (CdnUrl_init None external_url)
    NoopAudioDecrypt elapsed_ns.


End Factory.
End CdnManager.

(** ** Libraries to run the definitions with

    Closed statements need the external operations to be something.
    These are small stand-ins that agree with the real libraries on the
    inputs they are run on below; no general theorem depends on them. *)

Module Samples.

(** A chunk size of 128 KiB. *)
Definition chunk_128k : ChannelManager := {| CHUNK_SIZE := 131072 |}.

(** A cipher whose key stream is all zero: the data comes back as given. *)
Definition zero_keystream : Cryptodome :=
  {| AES_CTR_decrypt := fun _ _ data => data |}.

(** A broken cipher that loses the last byte of what it is given. *)
Definition lossy_cipher : Cryptodome :=
  {| AES_CTR_decrypt := fun _ _ data => take (length data - 1) data |}.

(** [urlparse(url).query] for a URL with a query and no fragment: the
    text after the first question mark. *)
Definition query_of (url : string) : string :=
  match str_index "?" url with
  | Some i => str_drop (S i) url
  | None => EmptyString
  end.

(** [parse_qs] for a query without escapes: fields are separated by [&],
    a field is split at its first [=], and fields without a value are
    dropped. *)
Definition fields_of (query : string) : gmap string (list string) :=
  foldr
    (fun field m =>
       match str_index "=" field with
       | Some i =>
           let name := str_take i field in
           let v := str_drop (S i) field in
           if Nat.eqb (str_len v) 0 then m
           else <[name := v :: default [] (m !! name)]> m
       | None => m
       end)
    ∅ (str_split "&" query).

(** Whether a text holds the character [c]. *)
Definition holds (c : ascii) (s : string) : bool :=
  match str_index c s with
  | Some _ => true
  | None => false
  end.

(** [urlparse] refuses a URL whose host has one bracket without the
    other ([Invalid IPv6 URL]); here the brackets are looked for in all
    the text before the query, which is the same for a URL without
    brackets in its path. *)
Definition refused (url : string) : bool :=
  let front :=
    match str_index "?" url with
    | Some i => str_take i url
    | None => url
    end in
  xorb (holds "[" front) (holds "]" front).

Definition plain_urls : UrlLib :=
  {| urlparse_query := fun url => if refused url then None else Some (query_of url);
     parse_qs := fields_of |}.

(** A session whose HTTP client answers every request with [probe] and
    whose resolve call answers with [resolve], read as a CDN result with
    the candidate [urls]; the random draw is always the first. *)
Definition fixed_session (probe resolve : Response) (urls : list string)
  : Session :=
  {| client_get := fun _ _ => probe;
     head_url := fun _ => "https://heads-fa.spotify.com/head/";
     storage_resolve := fun _ => resolve;
     parse_resolve := fun _ => {| result_code := CDN; cdnurl := urls |};
     randbelow := fun _ => 0%nat |}.

Definition response (status : Z) (body : option (list byte))
    (hs : list (string * string)) : Response :=
  {| status_code := status; content := body; headers := list_to_map hs |}.

(** A session that resolves every file to one fresh URL, and whose probe
    reports a total of [total] bytes. *)
Definition probe_session (total : string) : Session :=
  fixed_session
    (response 206 (Some [x4f; x67; x67; x53])
       [("Content-Range", "bytes 0-131071/" +:+ total)])
    (response 200 (Some []) [])
    ["https://cdn.example/audio/1?__token__=exp=2000~hmac=bb"].

(** A session whose HTTP client answers with [probe]. *)
Definition answering (probe : Response) : Session :=
  fixed_session probe (response 200 (Some []) []) [].

(** The signed URL the sample streams are opened with. *)
Definition signed_url : CdnManager.CdnUrl :=
  {| CdnManager.__fileId := Some [x01];
     CdnManager._expiration := Some 1000000;
     CdnManager._url :=
       Some "https://cdn.example/audio/1?__token__=exp=1000~hmac=aa" |}.

(** A stream of three chunks that has been closed after its first chunk
    arrived. *)
Definition closed_stream : CdnManager.Streamer :=
  {| CdnManager._streamId := CdnManager.File [x01];
     CdnManager._audioDecrypt :=
       CdnManager.AesDecrypt (AesAudioDecrypt.new (replicate 16 x00));
     CdnManager._cdnUrl := signed_url;
     CdnManager._size := Some 300000;
     CdnManager._chunks := Some 3;
     CdnManager._available := Some [true; false; false];
     CdnManager._requested := Some [true; true; false];
     CdnManager._buffer := Some [[x4f; x67]; []; []];
     CdnManager._internalStream :=
       Some {| CdnManager.closed := true; CdnManager.notified := [0] |};
     CdnManager.session_log := [] |}.

(** A key of 16 zero bytes. *)
Definition zero_key : list byte := replicate 16 x00.

(** 5000 bytes: one full sub-block and a shorter one. *)
Definition two_blocks : list byte := replicate 4096 x00 ++ replicate 904 xff.

(** A chunk size of 8 KiB: two sub-blocks to the chunk. *)
Definition chunk_8k : ChannelManager := {| CHUNK_SIZE := 8192 |}.

(** A stream of 13192 bytes: one chunk of 8 KiB and a shorter one. *)
Definition short_stream : list byte :=
  replicate 4096 x01 ++ replicate 4096 x02 ++ two_blocks.

(** A decryptor after three calls that took 7 ms together. *)
Definition timed_decrypt : AesAudioDecrypt.t :=
  {| AesAudioDecrypt.key := zero_key;
     AesAudioDecrypt.decrypt_count := 3;
     AesAudioDecrypt.decrypt_total_time := 7000000 |}.

(** The [Streamer] of a file of 131073 bytes as its constructor leaves it,
    the first chunk decrypted in 5 ns. *)
Definition opened_file : CdnManager.Streamer :=
  {| CdnManager._streamId := CdnManager.File [x01];
     CdnManager._audioDecrypt :=
       CdnManager.AesDecrypt
         {| AesAudioDecrypt.key := zero_key;
            AesAudioDecrypt.decrypt_count := 1;
            AesAudioDecrypt.decrypt_total_time := 5 |};
     CdnManager._cdnUrl := signed_url;
     CdnManager._size := Some 131073;
     CdnManager._chunks := Some 2;
     CdnManager._available := Some [true; false];
     CdnManager._requested := Some [true; false];
     CdnManager._buffer := Some [[x4f; x67; x67; x53]; []];
     CdnManager._internalStream :=
       Some {| CdnManager.closed := false; CdnManager.notified := [0] |};
     CdnManager.session_log :=
       [Debug (VFormat "Chunk {}/{} completed, cached: {}, stream: {}"
                 [VInt 1; VInt 2; VBool false;
                  VFormat "file_id: {}" [VBytes [x01]]])] |}.

(** The [Streamer] of an externally hosted episode of the same size. *)
Definition opened_episode : CdnManager.Streamer :=
  {| CdnManager._streamId := CdnManager.Episode "4rOoJ6Egrf8K2IrywzwOMk";
     CdnManager._audioDecrypt := CdnManager.NoopAudioDecrypt;
     CdnManager._cdnUrl :=
       {| CdnManager.__fileId := None;
          CdnManager._expiration := Some (-1);
          CdnManager._url := Some "https://host.example/episode.mp3" |};
     CdnManager._size := Some 131073;
     CdnManager._chunks := Some 2;
     CdnManager._available := Some [true; false];
     CdnManager._requested := Some [true; false];
     CdnManager._buffer := Some [[x4f; x67; x67; x53]; []];
     CdnManager._internalStream :=
       Some {| CdnManager.closed := false; CdnManager.notified := [0] |};
     CdnManager.session_log :=
       [Debug (VFormat "Chunk {}/{} completed, cached: {}, stream: {}"
                 [VInt 1; VInt 2; VBool false;
                  VFormat "episode_gid: {}"
                    [VStr "4rOoJ6Egrf8K2IrywzwOMk"]])] |}.

End Samples.

(** ** The specification's own words

    What the specification says the program computes, written without
    looking at the program: exact integer quotients, and the list of
    ciphers it expects. *)

Module Spec.

(** [ceil(a / b)] over the integers *)
Definition ceil_div (a b : Z) : Z := - ((- a) / b).

Section Decrypt.
Context {channels : ChannelManager} {crypto : Cryptodome}.

(** The [k]-th 4096-byte sub-block of a ciphertext; the last one may be
    shorter. *)
Definition sub_block (buffer : list byte) (k : nat) : list byte :=
  take 4096 (drop (k * 4096) buffer).

Definition sub_block_count (buffer : list byte) : nat :=
  ((length buffer + 4095) / 4096)%nat.

(** [IV + floor(CHUNK_SIZE * chunkIndex / 16)] *)
Definition counter_start (chunk_index : Z) : Z :=
  AesAudioDecrypt.iv_int + (CHUNK_SIZE * chunk_index) / 16.

(** One cipher per sub-block, from sub-block [from] on: the counter it
    starts at, [256] further for each sub-block, and the sub-block. *)
Definition cipher_runs (start : Z) (buffer : list byte) (from count : nat)
  : list (Z * list byte) :=
  (fun k => (start + Z.of_nat k * 256, sub_block buffer k)) <$> seq from count.

Definition expected_ciphers (start : Z) (buffer : list byte)
  : list (Z * list byte) :=
  cipher_runs start buffer 0 (sub_block_count buffer).

(** The cipher returns as many bytes as it is given. *)
Definition keeps_length (key : list byte) (run : Z * list byte) : Prop :=
  length (AES_CTR_decrypt key run.1 run.2) = length run.2.

(** The decrypted sub-blocks, in order. *)
Definition plaintext (key : list byte) (runs : list (Z * list byte))
  : list byte :=
  mjoin ((fun run => AES_CTR_decrypt key run.1 run.2) <$> runs).

End Decrypt.

Section Urls.
Context {urllib : UrlLib} {session : Session}.
Import CdnManager.

(** A segment of a token that is not of the form [exp=...]. *)
Definition not_exp (segment : string) : Prop :=
  forall value, segment <> "exp=" +:+ value.

(** The [CdnUrl] objects a program can hold: one that its constructor
    returned, after any number of calls of [set_url] and [url]. *)
Inductive reachable : CdnUrl -> Prop :=
| reach_init file_id u :
    outcome (CdnUrl_init file_id u) = Ok tt ->
    reachable (after (CdnUrl_init file_id u))
| reach_set_url c u :
    reachable c -> reachable (after (set_url c u))
| reach_url c now_ms :
    reachable c -> reachable (after (url c now_ms)).

End Urls.

(** The text of a [Content-Range] header after its first slash, up to the
    next slash if there is one. *)
Fixpoint until (c : ascii) (s : string) : string :=
  match s with
  | EmptyString => EmptyString
  | String x t => if Ascii.eqb x c then EmptyString else String x (until c t)
  end.

Definition total_field (content_range : string) : option string :=
  match str_index "/" content_range with
  | Some i => Some (until "/" (str_drop (S i) content_range))
  | None => None
  end.

End Spec.
Import Spec.

(** ** Words for the properties of the rest of the code *)

Module Shape.

(** A call of [decrypt_chunk]: the chunk index, the ciphertext and the
    time the call takes. *)
Definition call : Type := Z * list byte * Z.

Section Decrypt.
Context {channels : ChannelManager} {crypto : Cryptodome}.

(** The decryptor after a series of calls of [decrypt_chunk], whether
    they return or raise. *)
Definition after_calls (self : AesAudioDecrypt.t) (calls : list call)
  : AesAudioDecrypt.t :=
  foldl
    (fun d '(chunk_index, buffer, elapsed_ns) =>
       AesAudioDecrypt.self_after
         (AesAudioDecrypt.decrypt_chunk d chunk_index buffer elapsed_ns))
    self calls.

(** Whether a call returns for a decryptor with this key. *)
Definition returns (k : list byte) (c : call) : bool :=
  match AesAudioDecrypt.returned
          (AesAudioDecrypt.decrypt_chunk (AesAudioDecrypt.new k) c.1.1 c.1.2 c.2)
  with
  | Ok _ => true
  | Raise _ => false
  end.

(** Chunk [i] of a stream of bytes: the [CHUNK_SIZE] bytes from offset
    [i * CHUNK_SIZE] on, fewer at the end of the stream. *)
Definition stream_chunk (data : list byte) (i : nat) : list byte :=
  take (Z.to_nat CHUNK_SIZE) (drop (i * Z.to_nat CHUNK_SIZE) data).

End Decrypt.

(** A [Streamer] whose constructor has assigned everything: the three
    arrays are there with one slot per chunk, and so is the internal
    stream. *)
Definition well_formed (s : CdnManager.Streamer) : Prop :=
  exists chunks buffer available requested internal,
    CdnManager._chunks s = Some chunks
    /\ CdnManager._buffer s = Some buffer
    /\ CdnManager._available s = Some available
    /\ CdnManager._requested s = Some requested
    /\ CdnManager._internalStream s = Some internal
    /\ length buffer = Z.to_nat chunks
    /\ length available = Z.to_nat chunks
    /\ length requested = Z.to_nat chunks.

Section Streams.
Context {channels : ChannelManager} {crypto : Cryptodome} {session : Session}.

(** The [Streamer] objects a program can hold: one that its constructor
    returned, after any number of calls of [write_chunk] and
    [request_chunk], whether they return or raise. *)
Inductive served : CdnManager.Streamer -> Prop :=
| served_init stream_id cdn_url audio_decrypt elapsed_ns s :
    CdnManager.Streamer_init stream_id cdn_url audio_decrypt elapsed_ns
    = (s, Ok tt) ->
    served s
| served_write_chunk s chunk chunk_index cached elapsed_ns :
    served s ->
    served (CdnManager.write_chunk s chunk chunk_index cached elapsed_ns).1
| served_request_chunk s index elapsed_ns :
    served s ->
    served (CdnManager.request_chunk s index elapsed_ns).1.

End Streams.

End Shape.
Import Shape.

(** * The definitions on sample inputs *)

Module Examples.

(** [truediv] against the Standard Library's binary64 division: exact
    quotients, ties, quotients beyond 53 bits, subnormal results and
    overflow. *)
Example truediv_agrees_with_binary64 :
  forallb
    (fun '(a, b) =>
       same_value (truediv (Z.pos a) (Z.pos b)) (spec_truediv a b))
    [ (3, 16); (1, 3); (2, 3); (10, 7); (1, 10); (131073, 131072);
      (Pos.pow 2 70 + 1, 131072); (Pos.pow 2 70 + 3 * Pos.pow 2 17, 131072);
      (Pos.pow 2 53 + 1, 1); (Pos.pow 2 53 + 3, 1); (Pos.pow 2 54 + 2, 16);
      (Pos.pow 2 54 + 6, 16); (1, Pos.pow 2 1074); (1, Pos.pow 2 1075);
      (3, Pos.pow 2 1075); (Pos.pow 2 1024, 1); (Pos.pow 2 1024 - 1, 1);
      (Pos.pow 2 1024 - Pos.pow 2 970, 1);
      (Pos.pow 2 1024 - Pos.pow 2 970 - 1, 1);
      (9007199254740993, 3); (7, 9007199254740991) ]%positive
  = true.
Proof. vm_compute. reflexivity. Qed.

(** [float_div_int] against the same division, on quotients as
    [decrypt_time_ms] forms them. *)
Example float_div_int_agrees_with_binary64 :
  forallb
    (fun '(a, b) =>
       match truediv (Z.pos a) (Z.pos b) with
       | Ok x =>
           same_value (float_div_int x 1000000)
             (SFdiv 53 1024
                (S754_finite false (Z.to_pos (mantissa x)) (exponent x))
                (S754_finite false 1000000 0))
       | Raise _ => false
       end)
    [ (7000000, 3); (1, 3); (999999, 1); (1000000, 1); (1999999, 2);
      (9007199254740991, 1); (9007199254740991, 9007199254740991);
      (1, 9007199254740991); (123456789012345, 7); (3000000, 3);
      (5999999999999, 6); (Pos.pow 2 52 + 1, 1); (Pos.pow 2 60, 3) ]%positive
  = true.
Proof. vm_compute. reflexivity. Qed.

Example truediv_by_zero : truediv 5 0 = Raise ZeroDivisionError.
Proof. reflexivity. Qed.

Example int_of_negative_quotient :
  bind (truediv (-7) 2) (fun q => Ok (int_of_float q, math_ceil q))
  = Ok (-3, -3).
Proof. vm_compute. reflexivity. Qed.

Example int_of_str_samples :
  int_of_str <$> ["1700000000"; " 42 "; "+7"; "-7"; "1_000"; "007";
                  ""; "abc"; "1__0"; "_1"; "1_"; "12a"; "- 5"; "1.5";
                  "+ 5"; "--5"; "+_5"]
  = [Ok 1700000000; Ok 42; Ok 7; Ok (-7); Ok 1000; Ok 7;
     Raise ValueError; Raise ValueError; Raise ValueError; Raise ValueError;
     Raise ValueError; Raise ValueError; Raise ValueError; Raise ValueError;
     Raise ValueError; Raise ValueError; Raise ValueError].
Proof. vm_compute. reflexivity. Qed.

(** Control characters 28 to 31 are no white space for [int]; the
    next-line and no-break space characters are. *)
Example int_of_str_white_space :
  int_of_str <$> [String "028" "1"; String "1" (String "031" "");
                  String "160" "42"; String "133" (String "4" (String "133" ""));
                  String "009" (String "010" (String "011" (String "012"
                    (String "013" " 5"))));
                  String "5" (String "000" ""); String "178" ""]
  = [Raise ValueError; Raise ValueError; Ok 42; Ok 4; Ok 5;
     Raise ValueError; Raise ValueError].
Proof. vm_compute. reflexivity. Qed.

Example str_split_samples :
  str_split "~" "data~exp=1700000000~sig=abc"
  = ["data"; "exp=1700000000"; "sig=abc"]
  /\ str_split "~" "" = [""]
  /\ str_split "/" "bytes 0-131071/5000" = ["bytes 0-131071"; "5000"]
  /\ str_split "~" "a~~b~" = ["a"; ""; "b"; ""].
Proof. repeat split; reflexivity. Qed.

Example list_set_samples :
  list_set [10; 20; 30] 1 0 = Ok [10; 0; 30]
  /\ list_set [10; 20; 30] (-1) 0 = Ok [10; 20; 0]
  /\ list_set [10; 20; 30] 3 0 = Raise IndexError
  /\ list_set [10; 20; 30] (-4) 0 = Raise IndexError
  /\ list_set ([] : list Z) 0 0 = Raise IndexError.
Proof. repeat split; reflexivity. Qed.

Example range_step_samples :
  range_step 0 4096 = []
  /\ range_step 1 4096 = [0%nat]
  /\ range_step 4096 4096 = [0%nat]
  /\ range_step 4097 4096 = [0%nat; 4096%nat].
Proof. repeat split; reflexivity. Qed.

Example iv_int_value :
  AesAudioDecrypt.iv_int = 0x72e067fbddcbcf77ebe8bc643f630d93.
Proof. reflexivity. Qed.

(** The two token forms of the specification, through the constructor. *)
Example CdnUrl_init_samples :
  CdnManager._expiration
    (CdnManager.after
       (CdnManager.CdnUrl_init (urllib := Samples.plain_urls) (Some [x01])
          "https://cdn.example/a?__token__=data~exp=1700000000~sig=abc"))
  = Some 1700000000000
  /\ CdnManager._expiration
       (CdnManager.after
          (CdnManager.CdnUrl_init (urllib := Samples.plain_urls) (Some [x01])
             "https://cdn.example/a?1700000000_abcdef"))
     = Some 1700000000000
  /\ CdnManager._expiration
       (CdnManager.after
          (CdnManager.CdnUrl_init (urllib := Samples.plain_urls) (Some [x01])
             "https://cdn.example/a?nothing"))
     = Some (-1)
  /\ CdnManager._expiration
       (CdnManager.after
          (CdnManager.CdnUrl_init (urllib := Samples.plain_urls) None
             "https://example.org/episode.mp3"))
     = Some (-1).
Proof. repeat split; vm_compute; reflexivity. Qed.

(** A URL that [urlparse] refuses, its host opening a bracket it does not
    close: with a file id the constructor raises [ValueError], the URL
    stored and the expiration not assigned; without a file id the URL is
    never parsed and the constructor returns. *)
Example CdnUrl_init_refused_url :
  CdnManager.CdnUrl_init (urllib := Samples.plain_urls) (Some [x01])
    "https://[cdn.example/a?nothing"
  = {| CdnManager.after :=
         {| CdnManager.__fileId := Some [x01];
            CdnManager._expiration := None;
            CdnManager._url := Some "https://[cdn.example/a?nothing" |};
       CdnManager.outcome := Raise ValueError;
       CdnManager.logged := [];
       CdnManager.resolved := [] |}
  /\ CdnManager.outcome
       (CdnManager.CdnUrl_init (urllib := Samples.plain_urls) None
          "https://[cdn.example/a?nothing")
     = Ok tt.
Proof. split; vm_compute; reflexivity. Qed.

(** A stream of 5000 bytes, opened: one chunk, requested, written and
    announced. *)
Example Streamer_init_sample :
  CdnManager.Streamer_init (channels := Samples.chunk_128k)
    (crypto := Samples.zero_keystream)
    (session := Samples.probe_session "5000")
    (CdnManager.File [x01]) Samples.signed_url CdnManager.NoopAudioDecrypt 0
  = ({| CdnManager._streamId := CdnManager.File [x01];
        CdnManager._audioDecrypt := CdnManager.NoopAudioDecrypt;
        CdnManager._cdnUrl := Samples.signed_url;
        CdnManager._size := Some 5000;
        CdnManager._chunks := Some 1;
        CdnManager._available := Some [true];
        CdnManager._requested := Some [true];
        CdnManager._buffer := Some [[x4f; x67; x67; x53]];
        CdnManager._internalStream :=
          Some {| CdnManager.closed := false; CdnManager.notified := [0] |};
        CdnManager.session_log :=
          [Debug (VFormat "Chunk {}/{} completed, cached: {}, stream: {}"
                    [VInt 1; VInt 1; VBool false;
                     VFormat "file_id: {}" [VBytes [x01]]])] |},
     Ok tt).
Proof. vm_compute. reflexivity. Qed.

End Examples.

(** * Facts about the Python semantics *)

Module PyFacts.

(** [floor_log2_ratio a b] is the [l] with [2 ^ l <= a / b < 2 ^ (l + 1)]. *)
Lemma floor_log2_ratio_spec a b :
  0 < a -> 0 < b ->
  let l := floor_log2_ratio a b in
  b * 2 ^ Z.max 0 l <= a * 2 ^ Z.max 0 (- l) < 2 * (b * 2 ^ Z.max 0 l).
Proof.
  intros Ha Hb. unfold floor_log2_ratio.
  pose proof (Z.log2_spec a Ha) as [Ha1 Ha2].
  pose proof (Z.log2_spec b Hb) as [Hb1 Hb2].
  pose proof (Z.log2_nonneg a) as Hla. pose proof (Z.log2_nonneg b) as Hlb.
  set (la := Z.log2 a) in *. set (lb := Z.log2 b) in *.
  rewrite Z.pow_succ_r in Ha2, Hb2 by lia.
  destruct (Z.le_gt_cases 0 (la - lb)) as [Hd|Hd].
  - (* la = lb + d *)
    assert (E : 2 ^ la = 2 ^ lb * 2 ^ (la - lb)).
    { rewrite <- Z.pow_add_r by lia. f_equal; lia. }
    rewrite (Z.max_l 0 (-(la - lb))) by lia. rewrite (Z.max_r 0 (la - lb)) by lia.
    assert (0 < 2 ^ (la - lb)) by (apply Z.pow_pos_nonneg; lia).
    assert (0 < 2 ^ lb) by (apply Z.pow_pos_nonneg; lia).
    rewrite Z.pow_0_r, Z.mul_1_r.
    destruct (Z.ltb_spec (a) (b * 2 ^ (la - lb))) as [Hlt|Hge]; cbv zeta.
    + destruct (Z.eq_dec (la - lb) 0) as [E0|E0].
      * rewrite E0 in *. change (2 ^ 0) with 1 in *.
        change (2 ^ Z.max 0 (0 - 1)) with 1. change (2 ^ Z.max 0 (- (0 - 1))) with 2.
        nia.
      * rewrite (Z.max_r 0 (la - lb - 1)) by lia. rewrite (Z.max_l 0 (- (la - lb - 1))) by lia.
        rewrite Z.pow_0_r.
        assert (E1 : 2 ^ (la - lb) = 2 * 2 ^ (la - lb - 1)).
        { rewrite <- Z.pow_succ_r by lia. f_equal; lia. }
        assert (0 < 2 ^ (la - lb - 1)) by (apply Z.pow_pos_nonneg; lia).
        nia.
    + rewrite (Z.max_r 0 (la - lb)) by lia. rewrite (Z.max_l 0 (-(la - lb))) by lia.
      rewrite Z.pow_0_r. nia.
  - assert (E : 2 ^ lb = 2 ^ la * 2 ^ (lb - la)).
    { rewrite <- Z.pow_add_r by lia. f_equal; lia. }
    rewrite (Z.max_r 0 (-(la - lb))) by lia. rewrite (Z.max_l 0 (la - lb)) by lia.
    replace (- (la - lb)) with (lb - la) by lia.
    assert (0 < 2 ^ (lb - la)) by (apply Z.pow_pos_nonneg; lia).
    assert (0 < 2 ^ la) by (apply Z.pow_pos_nonneg; lia).
    rewrite Z.pow_0_r, Z.mul_1_r.
    destruct (Z.ltb_spec (a * 2 ^ (lb - la)) b) as [Hlt|Hge]; cbv zeta.
    + rewrite (Z.max_l 0 (la - lb - 1)) by lia. rewrite (Z.max_r 0 (- (la - lb - 1))) by lia.
      replace (- (la - lb - 1)) with (Z.succ (lb - la)) by lia.
      rewrite Z.pow_succ_r by lia. rewrite Z.pow_0_r. nia.
    + rewrite (Z.max_l 0 (la - lb)) by lia. rewrite (Z.max_r 0 (-(la - lb))) by lia.
      replace (- (la - lb)) with (lb - la) by lia.
      rewrite Z.pow_0_r. nia.
Qed.

(** Rounding goes to one of the two neighbours, the nearer one. *)
Lemma round_half_even_cases n d :
  0 < d ->
  let m := round_half_even n d in
  (m = n / d /\ 2 * (n mod d) <= d) \/ (m = n / d + 1 /\ d <= 2 * (n mod d)).
Proof.
  intros Hd. unfold round_half_even.
  destruct (Z.ltb_spec (2 * (n mod d)) d); [left; lia|].
  destruct (Z.ltb_spec d (2 * (n mod d))); [right; lia|].
  destruct (Z.even (n / d)); [left|right]; lia.
Qed.

Lemma round_half_even_exact n d : 0 < d -> round_half_even (n * d) d = n.
Proof.
  intros Hd. unfold round_half_even.
  rewrite Z.mod_mul, Z.div_mul by lia.
  destruct (Z.ltb_spec (2 * 0) d); [reflexivity | lia].
Qed.

Lemma pow2_pos k : 0 <= k -> 0 < 2 ^ k.
Proof. intros. apply Z.pow_pos_nonneg; lia. Qed.

(** Below [2 ^ 53] the quotient is a normal number: its mantissa is the
    rounding of [a * 2 ^ k / b] for the [k] that gives it 53 bits. *)
Lemma truediv_pos_normal a b :
  0 < a < 2 ^ 53 -> 0 < b < 2 ^ 53 ->
  exists k, 0 <= k /\ 2 ^ 52 * b <= a * 2 ^ k < 2 ^ 53 * b /\
    truediv_pos a b = Ok (Float (round_half_even (a * 2 ^ k) b) (- k)).
Proof.
  intros Ha Hb.
  pose proof (floor_log2_ratio_spec a b ltac:(lia) ltac:(lia)) as Hl.
  cbv zeta in Hl. unfold truediv_pos.
  set (l := floor_log2_ratio a b) in *.
  assert (Hl53 : l < 53).
  { destruct (Z.lt_ge_cases l 53) as [|Hge]; [lia|exfalso].
    rewrite Z.max_r, Z.max_l, Z.pow_0_r in Hl by lia.
    assert (2 ^ 53 <= 2 ^ l) by (apply Z.pow_le_mono_r; lia). nia. }
  assert (Hl54 : -54 < l).
  { destruct (Z.lt_ge_cases (-54) l) as [|Hge]; [lia|exfalso].
    rewrite Z.max_l, Z.max_r, Z.pow_0_r in Hl by lia.
    assert (2 ^ 54 <= 2 ^ (- l)) by (apply Z.pow_le_mono_r; lia).
    change (2 ^ 54) with (2 * 2 ^ 53) in *. nia. }
  exists (52 - l). split; [lia|].
  assert (Hnorm : 2 ^ 52 * b <= a * 2 ^ (52 - l) < 2 ^ 53 * b).
  { destruct (Z.le_gt_cases 0 l) as [Hs|Hs].
    - rewrite Z.max_r, Z.max_l, Z.pow_0_r in Hl by lia.
      assert (E : 2 ^ 52 = 2 ^ l * 2 ^ (52 - l)).
      { rewrite <- Z.pow_add_r by lia. f_equal; lia. }
      change (2 ^ 53) with (2 * 2 ^ 52). rewrite E.
      pose proof (pow2_pos l ltac:(lia)). pose proof (pow2_pos (52 - l) ltac:(lia)).
      nia.
    - rewrite Z.max_l, Z.max_r, Z.pow_0_r in Hl by lia.
      assert (E : 2 ^ (52 - l) = 2 ^ 52 * 2 ^ (- l)).
      { rewrite <- Z.pow_add_r by lia. f_equal; lia. }
      change (2 ^ 53) with (2 * 2 ^ 52). rewrite E.
      pose proof (pow2_pos (- l) ltac:(lia)). nia. }
  split; [exact Hnorm|].
  rewrite (Z.max_l (l - 52) (-1074)) by lia.
  rewrite (Z.max_r 0 (- (l - 52))) by lia.
  rewrite (Z.max_l 0 (l - 52)) by lia.
  replace (- (l - 52)) with (52 - l) by lia.
  rewrite Z.pow_0_r, !Z.mul_1_r.
  destruct (Z.leb_spec (2 ^ 1024) (round_half_even (a * 2 ^ (52 - l)) b)) as [Hov|_].
  - exfalso.
    pose proof (round_half_even_cases (a * 2 ^ (52 - l)) b ltac:(lia)) as Hm.
    cbv zeta in Hm.
    assert (a * 2 ^ (52 - l) / b < 2 ^ 53).
    { apply Z.div_lt_upper_bound; lia. }
    assert (2 ^ 53 + 1 < 2 ^ 1024).
    { assert (2 ^ 54 <= 2 ^ 1024) by (apply Z.pow_le_mono_r; lia).
      change (2 ^ 54) with (2 * 2 ^ 53) in *. change (2 ^ 53) with 9007199254740992 in *. lia. }
    lia.
  - do 2 f_equal. lia.
Qed.

(** [int(a / 16)] is [floor (a / 16)] as long as [a] fits a float. *)
Lemma int_truediv_16 a :
  0 <= a < 2 ^ 53 ->
  exists q, truediv a 16 = Ok q /\ int_of_float q = a / 16.
Proof.
  intros Ha. unfold truediv. change (16 =? 0) with false. cbv iota.
  destruct (Z.eqb_spec a 0) as [->|Hne].
  { eexists; split; reflexivity. }
  destruct (truediv_pos_normal a 16 ltac:(lia) ltac:(cbv; split; reflexivity))
    as (k & Hk & Hnorm & E).
  rewrite (Z.abs_eq a) by lia. change (Z.abs 16) with 16. rewrite E.
  replace (Z.sgn a) with 1 by (symmetry; apply Z.sgn_pos; lia).
  change (1 =? Z.sgn 16) with true. cbv iota.
  eexists; split; [reflexivity|].
  assert (Hk4 : 4 <= k).
  { destruct (Z.le_gt_cases 4 k) as [|Hlt]; [lia|exfalso].
    assert (2 ^ k <= 2 ^ 3) by (apply Z.pow_le_mono_r; lia).
    change (2 ^ 3) with 8 in *. change (2 ^ 52) with 4503599627370496 in *.
    change (2 ^ 53) with 9007199254740992 in *. nia. }
  assert (Ek : 2 ^ k = 2 ^ (k - 4) * 16).
  { change 16 with (2 ^ 4). rewrite <- Z.pow_add_r by lia. f_equal; lia. }
  unfold int_of_float; cbn [mantissa exponent].
  destruct (Z.leb_spec 0 (- k)); [lia|].
  rewrite Z.opp_involutive.
  rewrite Ek at 1. rewrite Z.mul_assoc, round_half_even_exact by lia.
  pose proof (pow2_pos (k - 4) ltac:(lia)).
  rewrite Z.quot_div_nonneg by nia.
  rewrite Ek, (Z.mul_comm a), Z.div_mul_cancel_l by lia. reflexivity.
Qed.

Lemma ceil_div_spec a b c : 0 < b -> (c - 1) * b < a <= c * b -> ceil_div a b = c.
Proof.
  intros Hb H. unfold ceil_div.
  assert (E : - a / b = - c); [|lia].
  symmetry. apply (Z.div_unique_pos (- a) b (- c) (c * b - a)); lia.
Qed.

Lemma ceil_div_bounds a b : 0 < b -> (ceil_div a b - 1) * b < a <= ceil_div a b * b.
Proof.
  intros Hb. unfold ceil_div.
  pose proof (Z.div_mod (- a) b ltac:(lia)).
  pose proof (Z.mod_pos_bound (- a) b Hb). nia.
Qed.

(** [math.ceil(a / b)] is [ceil (a / b)] as long as [a] and [b] fit a
    float: the rounding of the quotient never crosses an integer. *)
Lemma ceil_truediv a b :
  0 <= a < 2 ^ 53 -> 0 < b < 2 ^ 53 ->
  exists q, truediv a b = Ok q /\ math_ceil q = ceil_div a b.
Proof.
  intros Ha Hb. unfold truediv.
  destruct (Z.eqb_spec b 0) as [|_]; [lia|].
  destruct (Z.eqb_spec a 0) as [->|Hne].
  { eexists; split; [reflexivity|]. unfold ceil_div. cbn. 
    rewrite Z.div_0_l by lia. reflexivity. }
  destruct (truediv_pos_normal a b ltac:(lia) ltac:(lia)) as (k & Hk & Hnorm & E).
  rewrite (Z.abs_eq a), (Z.abs_eq b) by lia. rewrite E.
  rewrite !Z.sgn_pos by lia. cbn [Z.eqb Pos.eqb].
  eexists; split; [reflexivity|].
  unfold math_ceil; cbn [mantissa exponent].
  pose proof (ceil_div_bounds a b ltac:(lia)) as HC.
  set (C := ceil_div a b) in *.
  pose proof (pow2_pos k Hk) as Hp.
  pose proof (round_half_even_cases (a * 2 ^ k) b ltac:(lia)) as Hm. cbv zeta in Hm.
  pose proof (Z.div_mod (a * 2 ^ k) b ltac:(lia)) as Hdm.
  pose proof (Z.mod_pos_bound (a * 2 ^ k) b ltac:(lia)) as Hr.
  set (m := round_half_even (a * 2 ^ k) b) in *.
  set (q := a * 2 ^ k / b) in *. set (r := (a * 2 ^ k) mod b) in *.
  assert (Hb2 : b < 2 * 2 ^ k).
  { change (2 ^ 53) with (2 * 2 ^ 52) in *. nia. }
  assert (Hup : m <= C * 2 ^ k).
  { assert (q * b + r <= C * 2 ^ k * b) by nia.
    assert (q <= C * 2 ^ k) by nia.
    destruct Hm as [[-> _]|[-> Hh]]; [lia|].
    assert (q < C * 2 ^ k) by nia. lia. }
  assert (Hlo : (C - 1) * 2 ^ k < m).
  { destruct (Z.lt_ge_cases ((C - 1) * 2 ^ k) m) as [|Hle]; [lia|exfalso].
    assert (Ha' : (C - 1) * b + 1 <= a) by lia.
    assert ((C - 1) * 2 ^ k * b + 2 ^ k <= q * b + r) by nia.
    assert (q <= (C - 1) * 2 ^ k) by (destruct Hm as [[-> _]|[-> _]]; lia).
    assert (q = (C - 1) * 2 ^ k) by nia.
    assert (2 ^ k <= r) by nia.
    destruct Hm as [[_ Hh]|[Hh _]]; lia. }
  destruct (Z.leb_spec 0 (- k)).
  - assert (k = 0) by lia. subst k. change (2 ^ 0) with 1 in *.
    rewrite Z.pow_0_r. lia.
  - rewrite Z.opp_involutive. fold (ceil_div m (2 ^ k)).
    apply ceil_div_spec; lia.
Qed.

End PyFacts.

(** * AesAudioDecrypt *)

Module AesFacts.
Import AesAudioDecrypt.
Section Loop.
Context {channels : ChannelManager} {crypto : Cryptodome}.
Variables (self : AesAudioDecrypt.t) (buffer : list byte) (start : Z).

(** Every offset of the loop lies inside the buffer, so the slice the
    loop takes there is the sub-block, and [count] is its length. *)
Lemma offset_in_range k :
  (k < sub_block_count buffer)%nat -> (k * 4096 < length buffer)%nat.
Proof.
  unfold sub_block_count. intros Hk.
  pose proof (Nat.div_mod_eq (length buffer + 4095) 4096) as E.
  pose proof (Nat.mod_upper_bound (length buffer + 4095) 4096 ltac:(lia)) as Hr.
  lia.
Qed.

Lemma loop_block k :
  (k < sub_block_count buffer)%nat ->
  let count := Z.min 4096 (Z.of_nat (length buffer) - Z.of_nat (k * 4096)) in
  slice buffer (k * 4096) (Z.to_nat count) = sub_block buffer k
  /\ count = Z.of_nat (length (sub_block buffer k)).
Proof.
  intros Hk count. apply offset_in_range in Hk.
  unfold slice, sub_block.
  assert (Hd : length (drop (k * 4096) buffer) = (length buffer - k * 4096)%nat)
    by apply length_drop.
  destruct (Z.le_gt_cases 4096 (Z.of_nat (length buffer) - Z.of_nat (k * 4096))).
  - subst count. rewrite Z.min_l by lia. split; [reflexivity|].
    rewrite length_take, Hd. lia.
  - subst count. rewrite Z.min_r by lia. split.
    + rewrite !take_ge by lia. reflexivity.
    + rewrite length_take, Hd. lia.
Qed.

(** The loop from sub-block [j] on, entered with the counter
    [start + j * 256]: it creates the ciphers of the sub-blocks in order,
    stops at the first whose output has another length than its input,
    and otherwise leaves their outputs appended to [new_buffer]. *)
Lemma decrypt_loop_spec n : forall j l l' err,
  (j + n <= sub_block_count buffer)%nat ->
  iv l = start + Z.of_nat j * 256 ->
  decrypt_loop self buffer ((fun k => k * 4096)%nat <$> seq j n) l = (l', err) ->
  exists m, (m <= n)%nat
    /\ ciphers l' = ciphers l ++ cipher_runs start buffer j m
    /\ (err = None ->
        m = n
        /\ new_buffer l' = new_buffer l ++ plaintext (key self) (cipher_runs start buffer j n)
        /\ Forall (keeps_length (key self)) (cipher_runs start buffer j n))
    /\ (forall e, err = Some e ->
        exists actual expected,
          e = RuntimeError
                (VFormat "Couldn't process all data, actual: {}, expected: {}"
                   [VInt actual; VInt expected])
          /\ actual <> expected)
    /\ (Forall (keeps_length (key self)) (cipher_runs start buffer j n) -> err = None).
Proof.
  induction n as [|n IH]; intros j l l' err Hj Hiv Hrun.
  - cbn in Hrun. injection Hrun as <- <-. exists 0%nat.
    unfold cipher_runs, plaintext. cbn. rewrite !app_nil_r.
    repeat split; try done.
  - cbn [seq fmap list_fmap decrypt_loop] in Hrun.
    destruct (loop_block j ltac:(lia)) as [Hb Hc]. cbv zeta in Hb, Hc.
    rewrite Hb, Hc in Hrun.
    set (b := sub_block buffer j) in *.
    set (d := AES_CTR_decrypt (key self) (iv l) b) in *.
    destruct (Z.eqb_spec (Z.of_nat (length b)) (Z.of_nat (length d))) as [E|E];
      cbn [negb] in Hrun.
    + cbn [new_buffer iv ciphers] in Hrun.
      apply IH in Hrun; [|lia|cbn [iv]; unfold iv_diff; lia].
      destruct Hrun as (m & Hm & Hc' & HN & HS & HA).
      cbn [ciphers new_buffer] in *.
      assert (Hhead : cipher_runs start buffer j (S n)
                      = (iv l, b) :: cipher_runs start buffer (S j) n).
      { unfold cipher_runs. cbn [seq fmap list_fmap]. rewrite Hiv. reflexivity. }
      assert (Hk : keeps_length (key self) (iv l, b)).
      { unfold keeps_length. cbn. fold d. lia. }
      exists (S m). split; [lia|]. split.
      { rewrite Hc', <- app_assoc. f_equal.
        unfold cipher_runs. cbn [seq fmap list_fmap]. rewrite Hiv. reflexivity. }
      split.
      { intros ->. destruct (HN eq_refl) as (-> & Hnb & Hall).
        split; [reflexivity|]. split.
        - rewrite Hnb, Hhead, <- app_assoc. reflexivity.
        - rewrite Hhead. constructor; assumption. }
      split; [exact HS|].
      intros Hall. apply HA. rewrite Hhead in Hall. by inversion Hall.
    + injection Hrun as <- <-. cbn [ciphers].
      exists 1%nat. split; [lia|]. split.
      { unfold cipher_runs. cbn [seq fmap list_fmap]. rewrite Hiv. reflexivity. }
      split; [discriminate|]. split.
      { intros e [= <-]. exists (Z.of_nat (length d)), (Z.of_nat (length b)).
        split; [reflexivity|lia]. }
      intros Hall. exfalso. apply E.
      unfold cipher_runs in Hall. cbn [seq fmap list_fmap] in Hall.
      inversion Hall as [|? ? Hk _]. unfold keeps_length in Hk. cbn in Hk.
      rewrite <- Hiv in Hk. fold b d in Hk. lia.
Qed.
End Loop.

Section Chunk.
Context {channels : ChannelManager} {crypto : Cryptodome}.

Lemma sub_blocks_join (buffer : list byte) n : forall j,
  mjoin ((fun k => sub_block buffer k) <$> seq j n)
  = take (n * 4096) (drop (j * 4096) buffer).
Proof.
  induction n as [|n IH]; intros j; [reflexivity|].
  cbn [seq fmap list_fmap mjoin list_join]. rewrite IH. unfold sub_block.
  replace (S j * 4096)%nat with (j * 4096 + 4096)%nat by lia.
  rewrite <- drop_drop, take_take_drop. f_equal.
Qed.

Lemma expected_ciphers_join start (buffer : list byte) :
  mjoin (snd <$> expected_ciphers start buffer) = buffer.
Proof.
  unfold expected_ciphers, cipher_runs. rewrite <- list_fmap_compose.
  change (snd ∘ _) with (fun k => sub_block buffer k).
  rewrite sub_blocks_join. cbn [drop Nat.mul].
  apply take_ge. unfold sub_block_count.
  pose proof (Nat.div_mod_eq (length buffer + 4095) 4096).
  pose proof (Nat.mod_upper_bound (length buffer + 4095) 4096 ltac:(lia)).
  lia.
Qed.

Lemma full_sub_block (buffer : list byte) k :
  (S k < sub_block_count buffer)%nat -> length (sub_block buffer k) = 4096%nat.
Proof.
  intros Hk. apply offset_in_range in Hk. unfold sub_block.
  rewrite length_take, length_drop. lia.
Qed.

(** The counters the program uses, for any starting point of the loop. *)
Lemma decrypt_chunk_runs (self : t) chunk_index buffer elapsed_ns q :
  truediv (CHUNK_SIZE * chunk_index) 16 = Ok q ->
  let r := decrypt_chunk self chunk_index buffer elapsed_ns in
  let runs := expected_ciphers (iv_int + int_of_float q) buffer in
  created r `prefix_of` runs
  /\ (forall out, returned r = Ok out ->
        created r = runs /\ out = plaintext (key self) runs
        /\ Forall (keeps_length (key self)) runs)
  /\ (Forall (keeps_length (key self)) runs ->
        created r = runs /\ returned r = Ok (plaintext (key self) runs))
  /\ (forall e, returned r = Raise e ->
        exists actual expected,
          e = RuntimeError
                (VFormat "Couldn't process all data, actual: {}, expected: {}"
                   [VInt actual; VInt expected])
          /\ actual <> expected).
Proof.
  intros Hq r runs. subst r. unfold decrypt_chunk. rewrite Hq.
  unfold range_step.
  replace (length buffer + 4096 - 1)%nat with (length buffer + 4095)%nat by lia.
  fold (sub_block_count buffer).
  destruct (decrypt_loop _ _ _ _) as [l err] eqn:Hrun.
  apply (decrypt_loop_spec self buffer (iv_int + int_of_float q)) in Hrun;
    [|lia|cbn [iv]; lia].
  destruct Hrun as (m & Hm & Hc & HN & HS & HA). cbn [ciphers new_buffer app] in *.
  fold (expected_ciphers (iv_int + int_of_float q) buffer) in HN, HA. fold runs in HN, HA.
  assert (Hpre : ciphers l `prefix_of` runs).
  { rewrite Hc. subst runs. unfold expected_ciphers, cipher_runs.
    exists ((fun k => (iv_int + int_of_float q + Z.of_nat k * 256, sub_block buffer k))
              <$> seq m (sub_block_count buffer - m)).
    rewrite <- fmap_app. f_equal.
    replace (sub_block_count buffer) with (m + (sub_block_count buffer - m))%nat at 1 by lia.
    apply seq_app. }
  destruct err as [e|]; cbn [created returned].
  - split; [exact Hpre|]. split; [discriminate|]. split.
    + intros Hall. discriminate (HA Hall).
    + intros e' [= <-]. apply HS. reflexivity.
  - destruct (HN eq_refl) as (-> & Hnb & Hall).
    split; [exact Hpre|]. split.
    + intros out [= <-]. rewrite Hc, Hnb. done.
    + split; [|discriminate]. intros _. rewrite Hc, Hnb. done.
Qed.

(** C1, as amended.  For a chunk index [i] with
    [0 <= CHUNK_SIZE * i < 2 ^ 53], [decrypt_chunk] starts the counter at
    [IV + floor (CHUNK_SIZE * i / 16)]; it cuts the ciphertext into
    consecutive 4096-byte sub-blocks, the last possibly shorter; it creates
    one cipher per sub-block, the one for sub-block [k] with the counter
    [start + k * 256]; the ciphers it has created when it stops are always
    the first of that list, and all of it when it returns, its result
    being the decrypted sub-blocks in order. *)
Theorem decrypt_chunk_counters (self : t) chunk_index buffer elapsed_ns :
  0 <= CHUNK_SIZE * chunk_index < 2 ^ 53 ->
  let r := decrypt_chunk self chunk_index buffer elapsed_ns in
  let start := iv_int + (CHUNK_SIZE * chunk_index) / 16 in
  let runs := expected_ciphers start buffer in
  created r `prefix_of` runs
  /\ (forall out, returned r = Ok out ->
        created r = runs /\ out = plaintext (key self) runs)
  /\ (Forall (keeps_length (key self)) runs ->
        created r = runs /\ returned r = Ok (plaintext (key self) runs))
  /\ (forall k run, runs !! k = Some run ->
        run = (start + Z.of_nat k * 256, take 4096 (drop (k * 4096) buffer)))
  /\ mjoin (snd <$> runs) = buffer
  /\ (forall k, (S k < length runs)%nat ->
        length (take 4096 (drop (k * 4096) buffer)) = 4096%nat).
Proof.
  intros Hi r start runs.
  destruct (PyFacts.int_truediv_16 _ Hi) as (q & Hq & Hint).
  pose proof (decrypt_chunk_runs self chunk_index buffer elapsed_ns q Hq) as Hr.
  cbv zeta in Hr. rewrite Hint in Hr. fold start runs r in Hr.
  destruct Hr as (Hpre & Hok & Hall & _).
  split; [exact Hpre|]. split.
  { intros out Hout. destruct (Hok out Hout) as (? & ? & _). done. }
  split; [exact Hall|]. split.
  { intros k run Hk. subst runs. unfold expected_ciphers, cipher_runs in Hk.
    rewrite list_lookup_fmap in Hk.
    destruct (seq 0 (sub_block_count buffer) !! k) as [k'|] eqn:Hs; [|discriminate].
    apply lookup_seq in Hs as [-> _]. cbn in Hk. by injection Hk as <-. }
  split; [apply expected_ciphers_join|].
  intros k Hk. apply full_sub_block.
  subst runs. unfold expected_ciphers, cipher_runs in Hk.
  by rewrite length_fmap, length_seq in Hk.
Qed.

(** C7.  Whenever a cipher that [decrypt_chunk] has created returns data
    whose length differs from the length of the sub-block it was given,
    [decrypt_chunk] raises [RuntimeError] instead of returning. *)
Theorem decrypt_chunk_length_check (self : t) chunk_index buffer elapsed_ns run :
  run ∈ created (decrypt_chunk self chunk_index buffer elapsed_ns) ->
  length (AES_CTR_decrypt (key self) run.1 run.2) <> length run.2 ->
  exists actual expected,
    returned (decrypt_chunk self chunk_index buffer elapsed_ns)
    = Raise (RuntimeError
               (VFormat "Couldn't process all data, actual: {}, expected: {}"
                  [VInt actual; VInt expected]))
    /\ actual <> expected.
Proof.
  intros Hin Hlen.
  destruct (truediv (CHUNK_SIZE * chunk_index) 16) as [q|e] eqn:Hq.
  - pose proof (decrypt_chunk_runs self chunk_index buffer elapsed_ns q Hq) as Hr.
    cbv zeta in Hr. destruct Hr as (_ & Hok & _ & Hraise).
    destruct (returned (decrypt_chunk self chunk_index buffer elapsed_ns))
      as [out|e] eqn:Hret.
    + exfalso. destruct (Hok out eq_refl) as (Hc & _ & Hall).
      rewrite Hc in Hin. rewrite Forall_forall in Hall.
      apply Hlen, (Hall run Hin).
    + destruct (Hraise e eq_refl) as (a & x & -> & Hne). by exists a, x.
  - exfalso. unfold decrypt_chunk in Hin. rewrite Hq in Hin. cbn in Hin.
    by apply elem_of_nil in Hin.
Qed.

End Chunk.

(** Chunk 3 of a stream cut in chunks of 128 KiB, 5000 bytes long. *)
Lemma decrypt_chunk_counters_witness :
  created (decrypt_chunk (channels := Samples.chunk_128k)
             (crypto := Samples.zero_keystream) (new Samples.zero_key) 3
             Samples.two_blocks 0)
  = [(iv_int + 24576, replicate 4096 x00);
     (iv_int + 24576 + 256, replicate 904 xff)].
Proof.
  destruct (decrypt_chunk_counters (channels := Samples.chunk_128k)
              (crypto := Samples.zero_keystream) (new Samples.zero_key) 3
              Samples.two_blocks 0) as (_ & _ & H & _).
  - cbv. split; [discriminate | reflexivity].
  - destruct H as [E _].
    + apply Forall_forall. intros run _. reflexivity.
    + rewrite E. vm_compute. reflexivity.
Defined.

(** C1 as stated fails far out: for chunk [2 ^ 53 + 1] the quotient
    [CHUNK_SIZE * i / 16] is rounded before it is truncated, and the
    counter the cipher is created with is [2 ^ 13] short of
    [IV + floor (CHUNK_SIZE * i / 16)]. *)
Lemma decrypt_chunk_counter_far_chunk :
  created (decrypt_chunk (channels := Samples.chunk_128k)
             (crypto := Samples.zero_keystream) (new Samples.zero_key)
             (2 ^ 53 + 1) [x00] 0)
  = [(iv_int + 2 ^ 66, [x00])]
  /\ expected_ciphers
       (counter_start (channels := Samples.chunk_128k) (2 ^ 53 + 1)) [x00]
     = [(iv_int + 2 ^ 66 + 2 ^ 13, [x00])].
Proof. split; vm_compute; reflexivity. Qed.

(** A cipher that loses a byte: the two bytes of the only sub-block come
    back as one. *)
Lemma decrypt_chunk_length_check_witness :
  exists actual expected,
    returned (decrypt_chunk (channels := Samples.chunk_128k)
                (crypto := Samples.lossy_cipher) (new Samples.zero_key) 1
           [x00; x01] 7)
    = Raise (RuntimeError
               (VFormat "Couldn't process all data, actual: {}, expected: {}"
                  [VInt actual; VInt expected]))
    /\ actual <> expected.
Proof.
  apply (decrypt_chunk_length_check (channels := Samples.chunk_128k)
           (crypto := Samples.lossy_cipher) (new Samples.zero_key) 1
           [x00; x01] 7
           (iv_int + 8192, [x00; x01])).
  - vm_compute. apply list_elem_of_here.
  - vm_compute. discriminate.
Defined.

End AesFacts.

(** * CdnManager.CdnUrl *)

Module CdnUrlFacts.
Import CdnManager.

Lemma str_index_cut c s : forall i,
  str_index c s = Some i ->
  s = str_take i s +:+ String c (str_drop (S i) s).
Proof.
  induction s as [|x t IH]; intros i Hi; [discriminate|].
  cbn in Hi. destruct (Ascii.eqb_spec x c) as [->|Hne].
  - injection Hi as <-. reflexivity.
  - destruct (str_index c t) as [j|]; [|discriminate].
    injection Hi as <-.
    change (String x t
            = String x (str_take j t +:+ String c (str_drop (S j) t))).
    f_equal. by apply IH.
Qed.

Lemma str_len_0 s : Nat.eqb (str_len s) 0 = true <-> s = EmptyString.
Proof. destruct s; cbn; split; congruence. Qed.

Section Urls.
Context {urllib : UrlLib} {session : Session}.

Lemma find_expire_at_hit value rest :
  find_expire_at (("exp=" +:+ value) :: rest)
  = bind (int_of_str value) (fun n => Ok (Some n)).
Proof. reflexivity. Qed.

Lemma find_expire_at_skip segment rest :
  not_exp segment -> find_expire_at (segment :: rest) = find_expire_at rest.
Proof.
  intros Hn. cbn. destruct (str_index "=" segment) as [i|] eqn:Hi; [|reflexivity].
  destruct (String.eqb_spec (str_take i segment) "exp") as [E|_]; [|reflexivity].
  exfalso. apply (Hn (str_drop (S i) segment)).
  rewrite (str_index_cut _ _ _ Hi) at 1. rewrite E. reflexivity.
Qed.

Lemma find_expire_at_none segments :
  Forall not_exp segments -> find_expire_at segments = Ok None.
Proof.
  induction 1 as [|s l Hs _ IH]; [reflexivity|].
  by rewrite find_expire_at_skip.
Qed.

Lemma find_expire_at_first before value rest :
  Forall not_exp before ->
  find_expire_at (before ++ ("exp=" +:+ value) :: rest)
  = bind (int_of_str value) (fun n => Ok (Some n)).
Proof.
  induction 1 as [|s l Hs _ IH]; [apply find_expire_at_hit|].
  cbn [app]. by rewrite find_expire_at_skip.
Qed.

Lemma list_get_0 {A} (x : A) l : list_get (x :: l) 0 = Ok x.
Proof.
  unfold list_get, list_index. cbn [length]. rewrite Nat2Z.inj_succ.
  destruct (Z.ltb_spec 0 (Z.succ (Z.of_nat (length l)))); [reflexivity|lia].
Qed.

Lemma int_of_str_parsed s n : parse_int s = Some n -> int_of_str s = Ok n.
Proof. unfold int_of_str. by intros ->. Qed.

Lemma usable_token token :
  token <> "" -> token <> "None" ->
  negb (String.eqb token "None") && negb (Nat.eqb (str_len token) 0) = true.
Proof.
  intros Hne Hnn. apply andb_true_intro. split; apply negb_true_iff.
  - by apply String.eqb_neq.
  - destruct (Nat.eqb (str_len token) 0) eqn:E; [|reflexivity].
    by apply str_len_0 in E.
Qed.

(** C4, as amended.  For a URL with a file id that [urlparse] accepts
    and whose query carries a [__token__] parameter that is neither empty
    nor the text [None], [set_url] splits the token on [~]; when the first
    segment of the form [exp=...] reads [exp=<integer>], it sets the
    expiration to that integer times 1000 and returns; when no segment has
    the form [exp=...], it sets the expiration to -1, warns and returns. *)
Theorem set_url_token (self : CdnUrl) (u : string) fid query token more :
  __fileId self = Some fid ->
  urlparse_query u = Some query ->
  parse_qs query !! "__token__" = Some (token :: more) ->
  token <> "" -> token <> "None" ->
  (forall before value rest n,
      str_split "~" token = before ++ ("exp=" +:+ value) :: rest ->
      Forall not_exp before ->
      parse_int value = Some n ->
      set_url self u
      = {| after := {| __fileId := Some fid; _expiration := Some (n * 1000);
                       _url := Some u |};
           outcome := Ok tt; logged := []; resolved := [] |})
  /\ (Forall not_exp (str_split "~" token) ->
      set_url self u
      = {| after := {| __fileId := Some fid; _expiration := Some (-1);
                       _url := Some u |};
           outcome := Ok tt;
           logged := [Warning (VFormat "Invalid __token__ in CDN url: {}"
                                 [VStr u])];
           resolved := [] |}).
Proof.
  intros Hfid Hq Htok Hne Hnn. destruct self as [f e0 u0]. cbn in Hfid. subst f.
  unfold set_url. cbn [with_url __fileId].
  rewrite Hq, Htok. cbn [token_str_of]. rewrite list_get_0.
  rewrite (usable_token _ Hne Hnn). split.
  - intros before value rest n Hsplit Hbefore Hint.
    rewrite Hsplit, (find_expire_at_first _ _ _ Hbefore).
    by rewrite (int_of_str_parsed _ _ Hint).
  - intros Hall. by rewrite (find_expire_at_none _ Hall).
Qed.

(** C3, as amended.  For a URL with a file id that [urlparse] accepts
    and whose query has no usable [__token__] parameter (none, an empty
    one, or the text [None]), [set_url] looks for the first underscore of
    the raw query: when there is none it sets the expiration to -1, warns
    and returns; when there is one and the text before it reads as an
    integer, it sets the expiration to that integer times 1000 and
    returns. *)
Theorem set_url_no_token (self : CdnUrl) (u : string) fid query token :
  __fileId self = Some fid ->
  urlparse_query u = Some query ->
  token_str_of (parse_qs query !! "__token__") = Ok token ->
  token = "" \/ token = "None" ->
  (str_index "_" query = None ->
      set_url self u
      = {| after := {| __fileId := Some fid; _expiration := Some (-1);
                       _url := Some u |};
           outcome := Ok tt;
           logged :=
             [Warning
                (VFormat "Couldn't extract expiration, invalid parameter in CDN url: {}"
                   [VStr u])];
           resolved := [] |})
  /\ (forall i n,
      str_index "_" query = Some i ->
      parse_int (str_take i query) = Some n ->
      set_url self u
      = {| after := {| __fileId := Some fid; _expiration := Some (n * 1000);
                       _url := Some u |};
           outcome := Ok tt; logged := []; resolved := [] |}).
Proof.
  intros Hfid Hq Htok Hun. destruct self as [f e0 u0]. cbn in Hfid. subst f.
  unfold set_url. cbn [with_url __fileId].
  rewrite Hq, Htok.
  assert (Hc : negb (String.eqb token "None")
               && negb (Nat.eqb (str_len token) 0) = false).
  { destruct Hun as [-> | ->]; reflexivity. }
  rewrite Hc. split.
  - by intros ->.
  - intros i n -> Hint. by rewrite (int_of_str_parsed _ _ Hint).
Qed.

(** No method assigns [__fileId]; [url] does not assign [_expiration]. *)
Lemma set_url_keeps_file_id (c : CdnUrl) u :
  __fileId (after (set_url c u)) = __fileId c.
Proof.
  unfold set_url. cbn [with_url __fileId].
  destruct (__fileId c) as [fid|] eqn:Hf; [|done].
  repeat case_match; done.
Qed.

Lemma url_keeps_file_id (c : CdnUrl) now_ms :
  __fileId (after (url c now_ms)) = __fileId c.
Proof.
  unfold url. destruct (_expiration c); [|done].
  destruct (_ =? _); [by destruct (_url c)|].
  destruct (_ <=? _); [|done].
  by destruct (get_audio_url _) as [[?|?] ?].
Qed.

Lemma url_keeps_expiration (c : CdnUrl) now_ms :
  _expiration (after (url c now_ms)) = _expiration c.
Proof.
  unfold url. destruct (_expiration c) eqn:He; [|done].
  destruct (_ =? _); [by destruct (_url c)|].
  destruct (_ <=? _); [|done].
  by destruct (get_audio_url _) as [[?|?] ?].
Qed.

(** C10.  Every [CdnUrl] a program can hold has a file id whenever its
    expiration is not -1, and so the refresh of [url] never calls the
    resolver without a file id; [set_url] on an object without a file id,
    and the constructor called without one, set the expiration to -1. *)
Theorem refreshable_has_file_id (c : CdnUrl) :
  reachable c ->
  (forall e, _expiration c = Some e -> e <> -1 -> is_Some (__fileId c))
  /\ (forall now_ms file_id,
        file_id ∈ resolved (url c now_ms) -> is_Some file_id)
  /\ (forall u, __fileId c = None ->
        _expiration (after (set_url c u)) = Some (-1))
  /\ (forall u,
        _expiration (after (CdnUrl_init None u)) = Some (-1)
        /\ outcome (CdnUrl_init None u) = Ok tt).
Proof.
  intros Hc.
  assert (Hinv : forall e, _expiration c = Some e -> e <> -1 -> is_Some (__fileId c)).
  { induction Hc as [file_id u _ | c u _ IH | c now_ms _ IH].
    - unfold CdnUrl_init. rewrite set_url_keeps_file_id. cbn [__fileId].
      destruct file_id as [fid|]; [by eauto|].
      unfold set_url. cbn. congruence.
    - rewrite set_url_keeps_file_id.
      destruct (__fileId c) as [fid|] eqn:Hf; [by eauto|].
      unfold set_url. cbn [with_url __fileId]. rewrite Hf. cbn. congruence.
    - rewrite url_keeps_file_id, url_keeps_expiration. exact IH. }
  split; [exact Hinv|]. split.
  - intros now_ms file_id. unfold url.
    destruct (_expiration c) as [e|] eqn:He; [|cbn; by intros ?%elem_of_nil].
    destruct (Z.eqb_spec e (-1)) as [->|Hne].
    { destruct (_url c); cbn; by intros ?%elem_of_nil. }
    destruct (e <=? now_ms + 5 * 60 * 1000); [|cbn; by intros ?%elem_of_nil].
    destruct (get_audio_url (__fileId c)) as [[fresh|x] l]; cbn;
      intros ->%list_elem_of_singleton; by apply (Hinv e).
  - split; [|done].
    intros u Hf. unfold set_url. cbn [with_url __fileId]. by rewrite Hf.
Qed.

End Urls.

(** The query [__token__=data~exp=1700000000~sig=abc] of the
    specification. *)
Lemma set_url_token_witness :
  _expiration
    (after (set_url (urllib := Samples.plain_urls)
              {| __fileId := Some [x01]; _expiration := None; _url := None |}
              "https://cdn.example/a?__token__=data~exp=1700000000~sig=abc"))
  = Some 1700000000000.
Proof.
  destruct (set_url_token (urllib := Samples.plain_urls)
              {| __fileId := Some [x01]; _expiration := None; _url := None |}
              "https://cdn.example/a?__token__=data~exp=1700000000~sig=abc"
              [x01] "__token__=data~exp=1700000000~sig=abc"
              "data~exp=1700000000~sig=abc" []) as [H _].
  - reflexivity.
  - reflexivity.
  - vm_compute. reflexivity.
  - discriminate.
  - discriminate.
  - rewrite (H ["data"] "1700000000" ["sig=abc"] 1700000000).
    + reflexivity.
    + reflexivity.
    + constructor; [|constructor]. intros value. discriminate.
    + reflexivity.
Defined.

(** C4 as stated fails on a token whose [exp] segment is not a number:
    the URL is one [urlparse] accepts and no segment has the form
    [exp=<integer>], yet [set_url] does not set the expiration to -1: it
    raises [ValueError] and the constructor with it. *)
Lemma set_url_token_bad_exp :
  urlparse_query (UrlLib := Samples.plain_urls)
    "https://cdn.example/a?__token__=exp=abc"
  = Some "__token__=exp=abc"
  /\ parse_qs (UrlLib := Samples.plain_urls) "__token__=exp=abc" !! "__token__"
     = Some ["exp=abc"]
  /\ str_split "~" "exp=abc" = ["exp=abc"]
  /\ parse_int "abc" = None
  /\ CdnUrl_init (urllib := Samples.plain_urls) (Some [x01])
       "https://cdn.example/a?__token__=exp=abc"
     = {| after := {| __fileId := Some [x01]; _expiration := None;
                      _url := Some "https://cdn.example/a?__token__=exp=abc" |};
          outcome := Raise ValueError; logged := []; resolved := [] |}.
Proof. repeat split; vm_compute; reflexivity. Qed.

(** The query [1700000000_abcdef] of the specification. *)
Lemma set_url_no_token_witness :
  _expiration
    (after (set_url (urllib := Samples.plain_urls)
              {| __fileId := Some [x01]; _expiration := None; _url := None |}
              "https://cdn.example/a?1700000000_abcdef"))
  = Some 1700000000000.
Proof.
  destruct (set_url_no_token (urllib := Samples.plain_urls)
              {| __fileId := Some [x01]; _expiration := None; _url := None |}
              "https://cdn.example/a?1700000000_abcdef" [x01]
              "1700000000_abcdef" "") as [_ H].
  - reflexivity.
  - reflexivity.
  - vm_compute. reflexivity.
  - left. reflexivity.
  - rewrite (H 10%nat 1700000000); reflexivity.
Defined.

(** C3 as stated fails when the text before the underscore is not a
    number: the URL is one [urlparse] accepts, and [set_url] does not set
    the expiration to -1 and return, it raises [ValueError]. *)
Lemma set_url_no_token_bad_number :
  urlparse_query (UrlLib := Samples.plain_urls) "https://cdn.example/a?abc_def"
  = Some "abc_def"
  /\ str_index "_" "abc_def" = Some 3%nat
  /\ parse_int "abc" = None
  /\ CdnUrl_init (urllib := Samples.plain_urls) (Some [x01])
       "https://cdn.example/a?abc_def"
     = {| after := {| __fileId := Some [x01]; _expiration := None;
                      _url := Some "https://cdn.example/a?abc_def" |};
          outcome := Raise ValueError; logged := []; resolved := [] |}.
Proof. repeat split; vm_compute; reflexivity. Qed.

(** A URL without a file id, such as that of an externally hosted
    episode, is never refreshed: [url] returns it as it was given. *)
Lemma external_url_never_refreshes {urllib : UrlLib} {session : Session}
    u now_ms :
  url (after (CdnUrl_init None u)) now_ms
  = {| after := {| __fileId := None; _expiration := Some (-1);
                   _url := Some u |};
       outcome := Ok (UrlString u); logged := []; resolved := [] |}.
Proof. reflexivity. Qed.

(** An object built from a URL whose token expires at second 1000. *)
Lemma refreshable_has_file_id_witness :
  is_Some
    (__fileId
       (after (CdnUrl_init (urllib := Samples.plain_urls) (Some [x01])
                 "https://cdn.example/audio/1?__token__=exp=1000~hmac=aa"))).
Proof.
  destruct (refreshable_has_file_id (urllib := Samples.plain_urls)
              (session := Samples.probe_session "5000")
              (after (CdnUrl_init (urllib := Samples.plain_urls) (Some [x01])
                        "https://cdn.example/audio/1?__token__=exp=1000~hmac=aa")))
    as (H & _ & _ & _).
  - apply reach_init. vm_compute. reflexivity.
  - apply (H 1000000).
    + vm_compute. reflexivity.
    + discriminate.
Defined.

(** What [url] does when it refreshes: the resolver is called once with
    the file id and the new URL is stored, but the expiration stays as it
    was and the value returned is the bound method, not the URL. *)
Lemma url_refresh {session : Session} (c : CdnUrl) now_ms e fresh l :
  _expiration c = Some e -> e <> -1 -> e <= now_ms + 5 * 60 * 1000 ->
  get_audio_url (__fileId c) = (Ok fresh, l) ->
  url c now_ms
  = {| after := {| __fileId := __fileId c; _expiration := Some e;
                   _url := Some fresh |};
       outcome := Ok BoundMethod_url; logged := l;
       resolved := [__fileId c] |}.
Proof.
  intros He Hne Hle Hr. unfold url. rewrite He.
  destruct (Z.eqb_spec e (-1)) as [|_]; [done|].
  destruct (Z.leb_spec e (now_ms + 5 * 60 * 1000)) as [_|]; [|lia].
  rewrite Hr. unfold with_url. by rewrite He.
Qed.

(** C2, on the program as it is.  An object built from a URL whose token
    expires at second 1000 is asked for its URL at second 900, inside the
    five minutes before the expiry, and the resolver answers with a URL
    whose token expires at second 2000.  The resolver is called and the
    new URL is stored; the expiration stays at second 1000, where
    [set_url] on the new URL gives second 2000; and the value returned is
    the bound method [self.url], not the new URL. *)
Theorem url_refresh_returns_method :
  CdnUrl_init (urllib := Samples.plain_urls) (Some [x01])
    "https://cdn.example/audio/1?__token__=exp=1000~hmac=aa"
  = {| after := {| __fileId := Some [x01]; _expiration := Some 1000000;
                   _url := Some "https://cdn.example/audio/1?__token__=exp=1000~hmac=aa" |};
       outcome := Ok tt; logged := []; resolved := [] |}
  /\ url (session := Samples.probe_session "5000")
       {| __fileId := Some [x01]; _expiration := Some 1000000;
          _url := Some "https://cdn.example/audio/1?__token__=exp=1000~hmac=aa" |}
       900000
     = {| after := {| __fileId := Some [x01]; _expiration := Some 1000000;
                      _url := Some "https://cdn.example/audio/1?__token__=exp=2000~hmac=bb" |};
          outcome := Ok BoundMethod_url;
          logged := [Debug (VFormat "Fetched CDN url for {}: {}"
                              [VBytes [x01];
                               VStr "https://cdn.example/audio/1?__token__=exp=2000~hmac=bb"])];
          resolved := [Some [x01]] |}
  /\ _expiration
       (after (set_url (urllib := Samples.plain_urls)
                 {| __fileId := Some [x01]; _expiration := Some 1000000;
                    _url := Some "https://cdn.example/audio/1?__token__=exp=1000~hmac=aa" |}
                 "https://cdn.example/audio/1?__token__=exp=2000~hmac=bb"))
     = Some 2000000.
Proof. repeat split; vm_compute; reflexivity. Qed.

End CdnUrlFacts.

(** * CdnManager.Streamer and CdnManager.get_head *)

Module StreamerFacts.
Import CdnManager.

Lemma str_split_unfold c s :
  str_split c s
  = until c s
    :: match str_index c s with
       | Some i => str_split c (str_drop (S i) s)
       | None => []
       end.
Proof.
  induction s as [|x t IH]; [reflexivity|].
  cbn [str_split until str_index].
  destruct (Ascii.eqb x c); [reflexivity|].
  rewrite IH. by destruct (str_index c t).
Qed.

Lemma list_get_1 {A} (x y : A) l : list_get (x :: y :: l) 1 = Ok y.
Proof.
  unfold list_get, list_index. cbn [length]. rewrite !Nat2Z.inj_succ.
  destruct (Z.ltb_spec 1 (Z.succ (Z.succ (Z.of_nat (length l))))); [reflexivity|lia].
Qed.

(** The second item of the split header is the total field. *)
Lemma split_total content_range :
  list_get (Utils_split content_range "/") 1
  = match total_field content_range with
    | Some total => Ok total
    | None => Raise IndexError
    end.
Proof.
  unfold Utils_split, total_field. rewrite str_split_unfold.
  destruct (str_index "/" content_range) as [i|]; [|reflexivity].
  rewrite str_split_unfold. apply list_get_1.
Qed.

Section Streaming.
Context {channels : ChannelManager} {crypto : Cryptodome} {session : Session}.

Lemma notify_keeps_size (self : Streamer) index :
  _size (notify_chunk_available self index).1 = _size self
  /\ _chunks (notify_chunk_available self index).1 = _chunks self.
Proof. unfold notify_chunk_available. by repeat case_match. Qed.

Lemma write_chunk_keeps_size (self : Streamer) chunk chunk_index cached elapsed_ns :
  _size (write_chunk self chunk chunk_index cached elapsed_ns).1 = _size self
  /\ _chunks (write_chunk self chunk chunk_index cached elapsed_ns).1 = _chunks self.
Proof.
  unfold write_chunk.
  destruct (_internalStream self) as [st|]; [|done].
  destruct (closed st); [done|].
  destruct (_chunks self) as [n|] eqn:Hn; [|by cbn].
  destruct (audio_decrypt_chunk _ _ _ _) as [d [data|e]]; [|by cbn].
  cbn [set_audioDecrypt log_debug _buffer].
  destruct (_buffer self) as [b|]; [|by cbn].
  destruct (list_set b chunk_index data) as [b'|e]; [|by cbn].
  destruct (notify_keeps_size
              (set_buffer
                 (set_audioDecrypt
                    (log_debug self
                       (VFormat "Chunk {}/{} completed, cached: {}, stream: {}"
                          [VInt (chunk_index + 1); VInt n; VBool cached;
                           describe self])) d) b') chunk_index) as [-> ->].
  by cbn.
Qed.

(** The probe of [__init__], when the request itself succeeds. *)
Lemma probe_request (self : Streamer) u body :
  _url (_cdnUrl self) = Some u ->
  status_code (client_get u (Some (Some 0, Some (CHUNK_SIZE - 1)))) = 206 ->
  content (client_get u (Some (Some 0, Some (CHUNK_SIZE - 1)))) = Some body ->
  request self None (Some 0) (Some (CHUNK_SIZE - 1))
  = Ok {| InternalResponse._buffer := body;
          InternalResponse._headers :=
            headers (client_get u (Some (Some 0, Some (CHUNK_SIZE - 1)))) |}.
Proof. intros Hu Hs Hb. unfold request. by rewrite Hu, Hs, Hb. Qed.

(** [__init__] up to the assignment of [_chunks]: the size is read from
    the total field and the chunk count is the ceiling of the rounded
    quotient. *)
Lemma Streamer_init_size stream_id (cdn_url : CdnUrl) audio_decrypt elapsed_ns
    u body content_range total size quotient :
  _url cdn_url = Some u ->
  status_code (client_get u (Some (Some 0, Some (CHUNK_SIZE - 1)))) = 206 ->
  content (client_get u (Some (Some 0, Some (CHUNK_SIZE - 1)))) = Some body ->
  headers (client_get u (Some (Some 0, Some (CHUNK_SIZE - 1))))
    !! "Content-Range" = Some content_range ->
  total_field content_range = Some total ->
  parse_int total = Some size ->
  truediv size CHUNK_SIZE = Ok quotient ->
  _size (Streamer_init stream_id cdn_url audio_decrypt elapsed_ns).1 = Some size
  /\ _chunks (Streamer_init stream_id cdn_url audio_decrypt elapsed_ns).1
     = Some (math_ceil quotient).
Proof.
  intros Hu Hs Hb Hh Ht Hp Hq. unfold Streamer_init.
  rewrite (probe_request _ u body) by done.
  cbn [InternalResponse._headers InternalResponse._buffer]. rewrite Hh.
  rewrite split_total, Ht. cbn [bind]. unfold int_of_str. rewrite Hp, Hq.
  destruct (list_set _ 0 true) as [requested|e]; [|done].
  match goal with
  | |- context [write_chunk ?s ?c ?i ?b ?t] =>
      destruct (write_chunk_keeps_size s c i b t) as [-> ->]
  end.
  done.
Qed.

(** C5, as amended.  When the probe succeeds and its [Content-Range]
    header gives a total size [size] with [0 <= size < 2 ^ 53] (and
    [CHUNK_SIZE] is positive and below [2 ^ 53]), [__init__] sets the chunk
    count to [ceil (size / CHUNK_SIZE)]: 1 for [size = CHUNK_SIZE] and 2
    for [size = CHUNK_SIZE + 1]. *)
Theorem Streamer_init_chunk_count stream_id (cdn_url : CdnUrl) audio_decrypt
    elapsed_ns u body content_range total size :
  0 < CHUNK_SIZE < 2 ^ 53 ->
  _url cdn_url = Some u ->
  status_code (client_get u (Some (Some 0, Some (CHUNK_SIZE - 1)))) = 206 ->
  content (client_get u (Some (Some 0, Some (CHUNK_SIZE - 1)))) = Some body ->
  headers (client_get u (Some (Some 0, Some (CHUNK_SIZE - 1))))
    !! "Content-Range" = Some content_range ->
  total_field content_range = Some total ->
  parse_int total = Some size ->
  0 <= size < 2 ^ 53 ->
  _chunks (Streamer_init stream_id cdn_url audio_decrypt elapsed_ns).1
  = Some (ceil_div size CHUNK_SIZE)
  /\ (size = CHUNK_SIZE ->
      _chunks (Streamer_init stream_id cdn_url audio_decrypt elapsed_ns).1
      = Some 1)
  /\ (size = CHUNK_SIZE + 1 ->
      _chunks (Streamer_init stream_id cdn_url audio_decrypt elapsed_ns).1
      = Some 2).
Proof.
  intros Hcs Hu Hs Hb Hh Ht Hp Hsize.
  destruct (PyFacts.ceil_truediv size CHUNK_SIZE Hsize Hcs) as (q & Hq & Hceil).
  destruct (Streamer_init_size stream_id cdn_url audio_decrypt elapsed_ns
              u body content_range total size q Hu Hs Hb Hh Ht Hp Hq) as [_ Hc].
  rewrite Hc, Hceil. split; [reflexivity|]. split; intros E; f_equal.
  - apply PyFacts.ceil_div_spec; lia.
  - apply PyFacts.ceil_div_spec; lia.
Qed.

(** C6.  When the response to the probe carries no [Content-Range]
    header, [__init__] raises, so no [Streamer] and no stream of it reach
    the caller, and it does so before the three arrays and the internal
    stream are assigned; the error is the [IOError] for the missing header
    when the request itself went through.  Otherwise the size is read
    from the text of the header after its slash: [_size] is assigned
    exactly when that text is there and is a number, and is that number. *)
Theorem Streamer_init_content_range stream_id (cdn_url : CdnUrl) audio_decrypt
    elapsed_ns u :
  _url cdn_url = Some u ->
  (headers (client_get u (Some (Some 0, Some (CHUNK_SIZE - 1))))
     !! "Content-Range" = None ->
   raises (Streamer_init stream_id cdn_url audio_decrypt elapsed_ns).2
   /\ _available (Streamer_init stream_id cdn_url audio_decrypt elapsed_ns).1 = None
   /\ _requested (Streamer_init stream_id cdn_url audio_decrypt elapsed_ns).1 = None
   /\ _buffer (Streamer_init stream_id cdn_url audio_decrypt elapsed_ns).1 = None
   /\ _internalStream (Streamer_init stream_id cdn_url audio_decrypt elapsed_ns).1 = None
   /\ raises (stream (Streamer_init stream_id cdn_url audio_decrypt elapsed_ns).1)
   /\ (status_code (client_get u (Some (Some 0, Some (CHUNK_SIZE - 1)))) = 206 ->
       is_Some (content (client_get u (Some (Some 0, Some (CHUNK_SIZE - 1))))) ->
       (Streamer_init stream_id cdn_url audio_decrypt elapsed_ns).2
       = Raise (IOError (VStr "Missing Content-Range header!"))))
  /\ (forall content_range,
        headers (client_get u (Some (Some 0, Some (CHUNK_SIZE - 1))))
          !! "Content-Range" = Some content_range ->
        status_code (client_get u (Some (Some 0, Some (CHUNK_SIZE - 1)))) = 206 ->
        is_Some (content (client_get u (Some (Some 0, Some (CHUNK_SIZE - 1))))) ->
        _size (Streamer_init stream_id cdn_url audio_decrypt elapsed_ns).1
        = total_field content_range ≫= parse_int).
Proof.
  intros Hu. split.
  - intros Hh. unfold Streamer_init, request. cbn [_cdnUrl]. rewrite Hu.
    destruct (status_code _ =? 206) eqn:Hs; cbn [negb].
    + destruct (content _) as [body|] eqn:Hb.
      * cbn [InternalResponse._headers]. rewrite Hh. cbn.
        repeat split; try done; by eexists.
      * cbn. repeat split; try done; by eexists.
    + cbn. repeat split; try done; try by eexists.
      intros E. rewrite E in Hs. done.
  - intros content_range Hh Hs [body Hb].
    unfold Streamer_init. rewrite (probe_request _ u body) by done.
    cbn [InternalResponse._headers InternalResponse._buffer]. rewrite Hh.
    rewrite split_total.
    destruct (total_field content_range) as [total|]; cbn [bind]; [|done].
    unfold int_of_str. cbn [mbind option_bind].
    destruct (parse_int total) as [size|]; [|done].
    destruct (truediv size CHUNK_SIZE) as [q|e]; [|done].
    destruct (list_set _ 0 true) as [requested|e]; [|done].
    match goal with
    | |- context [write_chunk ?s ?c ?i ?b ?t] =>
        destruct (write_chunk_keeps_size s c i b t) as [-> _]
    end.
    done.
Qed.

(** C8.  When the internal stream is closed, [write_chunk] returns at
    once and leaves the object as it was: the chunk buffer, the
    decryptor with its call counter, the available bits, the list of
    notified chunks and the log are all unchanged, and nothing is
    raised. *)
Theorem write_chunk_after_close (self : Streamer) chunk chunk_index cached
    elapsed_ns internal :
  _internalStream self = Some internal ->
  closed internal = true ->
  write_chunk self chunk chunk_index cached elapsed_ns = (self, Ok tt).
Proof. intros Hi Hc. unfold write_chunk. by rewrite Hi, Hc. Qed.

(** C9, as amended.  [get_head] returns the body exactly when the status
    is 200 and the body is not [None]; it raises [IOError] for every other
    status and for a body that is [None]. *)
Theorem get_head_outcome (file_id : list byte) :
  (forall body,
      get_head file_id = Ok body
      <-> status_code (client_get (head_url file_id) None) = 200
          /\ content (client_get (head_url file_id) None) = Some body)
  /\ (status_code (client_get (head_url file_id) None) <> 200 ->
      get_head file_id
      = Raise (IOError
                 (VFormat "{}"
                    [VInt (status_code (client_get (head_url file_id) None))])))
  /\ (status_code (client_get (head_url file_id) None) = 200 ->
      content (client_get (head_url file_id) None) = None ->
      get_head file_id = Raise (IOError (VStr "Response body is empty!"))).
Proof.
  unfold get_head.
  destruct (Z.eqb_spec (status_code (client_get (head_url file_id) None)) 200)
    as [E|E]; cbn [negb].
  - destruct (content _) as [b|]; (split; [|split]).
    + intros body. split; [by intros [= <-] | by intros [_ [= <-]]].
    + intros Hne. by destruct Hne.
    + by intros _ ?.
    + intros body. split; [done | by intros [_ ?]].
    + intros Hne. by destruct Hne.
    + done.
  - split; [|split].
    + intros body. split; [done | by intros [? _]].
    + done.
    + intros E'. by destruct E.
Qed.

End Streaming.

(** A probe that reports 131073 bytes, one more than a chunk. *)
Lemma Streamer_init_chunk_count_witness :
  _chunks
    (Streamer_init (channels := Samples.chunk_128k)
       (crypto := Samples.zero_keystream)
       (session := Samples.probe_session "131073")
       (File [x01]) Samples.signed_url NoopAudioDecrypt 0).1
  = Some 2.
Proof.
  destruct (Streamer_init_chunk_count (channels := Samples.chunk_128k)
              (crypto := Samples.zero_keystream)
              (session := Samples.probe_session "131073")
              (File [x01]) Samples.signed_url NoopAudioDecrypt 0
              "https://cdn.example/audio/1?__token__=exp=1000~hmac=aa"
              [x4f; x67; x67; x53] "bytes 0-131071/131073" "131073" 131073)
    as (_ & _ & H).
  - cbv. split; reflexivity.
  - reflexivity.
  - reflexivity.
  - reflexivity.
  - vm_compute. reflexivity.
  - reflexivity.
  - reflexivity.
  - cbv. split; [discriminate | reflexivity].
  - apply H. reflexivity.
Defined.

(** C5 as stated fails for a total far beyond what a float holds: for
    [2 ^ 70 + 1] bytes the quotient is rounded to [2 ^ 53] before the
    ceiling is taken, one chunk short of [ceil (size / CHUNK_SIZE)]. *)
Lemma Streamer_init_chunk_count_huge :
  _chunks
    (Streamer_init (channels := Samples.chunk_128k)
       (crypto := Samples.zero_keystream)
       (session := Samples.probe_session "1180591620717411303425")
       (File [x01]) Samples.signed_url NoopAudioDecrypt 0).1
  = Some (2 ^ 53)
  /\ ceil_div 1180591620717411303425 131072 = 2 ^ 53 + 1.
Proof.
  split; [|vm_compute; reflexivity].
  assert (Hq : truediv 1180591620717411303425 131072 = Ok (Float (2 ^ 52) 1))
    by (vm_compute; reflexivity).
  assert (Hp : parse_int "1180591620717411303425" = Some 1180591620717411303425)
    by (vm_compute; reflexivity).
  destruct (Streamer_init_size (channels := Samples.chunk_128k)
              (crypto := Samples.zero_keystream)
              (session := Samples.probe_session "1180591620717411303425")
              (File [x01]) Samples.signed_url NoopAudioDecrypt 0
              "https://cdn.example/audio/1?__token__=exp=1000~hmac=aa"
              [x4f; x67; x67; x53] "bytes 0-131071/1180591620717411303425"
              "1180591620717411303425" 1180591620717411303425
              (Float (2 ^ 52) 1) eq_refl eq_refl eq_refl eq_refl eq_refl Hp Hq)
    as [_ H].
  rewrite H. reflexivity.
Qed.

(** A probe answered without a [Content-Range] header. *)
Lemma Streamer_init_content_range_witness :
  (Streamer_init (channels := Samples.chunk_128k)
     (crypto := Samples.zero_keystream)
     (session := Samples.answering (Samples.response 206 (Some [x4f]) []))
     (File [x01]) Samples.signed_url NoopAudioDecrypt 0).2
  = Raise (IOError (VStr "Missing Content-Range header!")).
Proof.
  destruct (Streamer_init_content_range (channels := Samples.chunk_128k)
              (crypto := Samples.zero_keystream)
              (session := Samples.answering (Samples.response 206 (Some [x4f]) []))
              (File [x01]) Samples.signed_url NoopAudioDecrypt 0
              "https://cdn.example/audio/1?__token__=exp=1000~hmac=aa")
    as [H _].
  - reflexivity.
  - destruct H as (_ & _ & _ & _ & _ & _ & H).
    + reflexivity.
    + apply H; [reflexivity | by eexists].
Defined.

(** The second chunk arrives after the stream was closed. *)
Lemma write_chunk_after_close_witness :
  write_chunk (channels := Samples.chunk_128k)
    (crypto := Samples.zero_keystream) Samples.closed_stream
    [x01; x02] 1 false 7
  = (Samples.closed_stream, Ok tt).
Proof.
  apply (write_chunk_after_close (channels := Samples.chunk_128k)
           (crypto := Samples.zero_keystream) Samples.closed_stream
           [x01; x02] 1 false 7
           {| closed := true; notified := [0] |}); reflexivity.
Defined.

(** C9 as stated fails for a body of length zero: with status 200 it is
    returned, not refused. *)
Lemma get_head_empty_body :
  get_head (session := Samples.answering (Samples.response 200 (Some []) []))
    [x01]
  = Ok [].
Proof. reflexivity. Qed.

End StreamerFacts.

(** * The rest of the code *)

Ltac splits := repeat match goal with |- _ /\ _ => split end.

(** ** Rounding twice: [int((a / b) / 1000000)] *)

Module FloatFacts.
Import PyFacts.

Lemma round_half_even_lower n d c :
  0 < d -> c * d <= n -> c <= round_half_even n d.
Proof.
  intros Hd Hc.
  assert (c <= n / d) by (apply Z.div_le_lower_bound; lia).
  destruct (round_half_even_cases n d Hd) as [[-> _]|[-> _]]; lia.
Qed.

Lemma round_half_even_upper n d c :
  0 < d -> n <= c * d -> round_half_even n d <= c.
Proof.
  intros Hd Hc.
  pose proof (Z.div_mod n d ltac:(lia)) as Hdm.
  pose proof (Z.mod_pos_bound n d Hd) as Hr.
  destruct (round_half_even_cases n d Hd) as [[-> _]|[-> Hh]]; nia.
Qed.

(** Rounding stays below an integer the quotient is more than a half
    below. *)
Lemma round_half_even_below n d c :
  0 < d -> 2 * n < (2 * c - 1) * d -> round_half_even n d <= c - 1.
Proof.
  intros Hd Hc.
  pose proof (Z.div_mod n d ltac:(lia)) as Hdm.
  pose proof (Z.mod_pos_bound n d Hd) as Hr.
  destruct (round_half_even_cases n d Hd) as [[-> _]|[-> Hh]]; nia.
Qed.

(** The quotient is a normal number whenever it lies between [2 ^ -1022]
    and [2 ^ 53], whatever the size of the operands. *)
Lemma truediv_pos_normal_range a b :
  0 < a -> 0 < b ->
  -1022 <= floor_log2_ratio a b <= 52 ->
  exists k, 0 <= k /\ 2 ^ 52 * b <= a * 2 ^ k < 2 ^ 53 * b /\
    truediv_pos a b = Ok (Float (round_half_even (a * 2 ^ k) b) (- k)).
Proof.
  intros Ha Hb Hl.
  pose proof (floor_log2_ratio_spec a b Ha Hb) as Hs. cbv zeta in Hs.
  unfold truediv_pos. set (l := floor_log2_ratio a b) in *.
  exists (52 - l). split; [lia|].
  assert (Hnorm : 2 ^ 52 * b <= a * 2 ^ (52 - l) < 2 ^ 53 * b).
  { destruct (Z.le_gt_cases 0 l) as [Hsg|Hsg].
    - rewrite Z.max_r, Z.max_l, Z.pow_0_r in Hs by lia.
      assert (E : 2 ^ 52 = 2 ^ l * 2 ^ (52 - l)).
      { rewrite <- Z.pow_add_r by lia. f_equal; lia. }
      change (2 ^ 53) with (2 * 2 ^ 52). rewrite E.
      pose proof (pow2_pos l ltac:(lia)). pose proof (pow2_pos (52 - l) ltac:(lia)).
      nia.
    - rewrite Z.max_l, Z.max_r, Z.pow_0_r in Hs by lia.
      assert (E : 2 ^ (52 - l) = 2 ^ 52 * 2 ^ (- l)).
      { rewrite <- Z.pow_add_r by lia. f_equal; lia. }
      change (2 ^ 53) with (2 * 2 ^ 52). rewrite E.
      pose proof (pow2_pos (- l) ltac:(lia)). nia. }
  split; [exact Hnorm|].
  rewrite (Z.max_l (l - 52) (-1074)) by lia.
  rewrite (Z.max_r 0 (- (l - 52))) by lia.
  rewrite (Z.max_l 0 (l - 52)) by lia.
  replace (- (l - 52)) with (52 - l) by lia.
  rewrite Z.pow_0_r, !Z.mul_1_r.
  destruct (Z.leb_spec (2 ^ 1024) (round_half_even (a * 2 ^ (52 - l)) b)) as [Hov|_].
  - exfalso.
    assert (round_half_even (a * 2 ^ (52 - l)) b <= 2 ^ 53)
      by (apply round_half_even_upper; lia).
    assert (2 ^ 53 < 2 ^ 1024) by (apply Z.pow_lt_mono_r; lia).
    lia.
  - do 2 f_equal. lia.
Qed.

(** A million times a power of two is no power of two. *)
Lemma million_not_pow2 k j : 0 <= k -> 0 <= j -> 1000000 * 2 ^ k <> 2 ^ j.
Proof.
  intros Hk Hj E.
  pose proof (pow2_pos k Hk) as Hp.
  destruct (Z.le_gt_cases j (k + 19)) as [Hle|Hgt].
  - assert (2 ^ j <= 2 ^ (k + 19)) by (apply Z.pow_le_mono_r; lia).
    rewrite Z.pow_add_r in * by lia. change (2 ^ 19) with 524288 in *. nia.
  - assert (2 ^ (k + 20) <= 2 ^ j) by (apply Z.pow_le_mono_r; lia).
    rewrite Z.pow_add_r in * by lia. change (2 ^ 20) with 1048576 in *. nia.
Qed.

Lemma truediv_pos_eq a b : 0 < a -> 0 < b -> truediv a b = truediv_pos a b.
Proof.
  intros Ha Hb. unfold truediv.
  destruct (Z.eqb_spec b 0); [lia|]. destruct (Z.eqb_spec a 0); [lia|].
  rewrite !Z.abs_eq, !Z.sgn_pos, Z.eqb_refl by lia.
  destruct (truediv_pos a b); reflexivity.
Qed.

(** [int((a / b) / 1000000)] is [floor (a / (b * 1000000))] as long as
    [a] and [b] fit a float: neither of the two roundings crosses a
    multiple of a million. *)
Lemma int_truediv_million a b :
  0 <= a < 2 ^ 53 -> 0 < b < 2 ^ 53 ->
  exists x y, truediv a b = Ok x /\ float_div_int x 1000000 = Ok y
    /\ int_of_float y = a / (b * 1000000).
Proof.
  intros Ha Hb.
  destruct (Z.eq_dec a 0) as [->|Hne].
  { exists (Float 0 0), (Float 0 0). repeat split.
    unfold truediv. destruct (Z.eqb_spec b 0); [lia|reflexivity]. }
  rewrite truediv_pos_eq by lia.
  destruct (truediv_pos_normal a b ltac:(lia) ltac:(lia)) as (k1 & Hk1 & Hn1 & E1).
  rewrite E1. set (m1 := round_half_even (a * 2 ^ k1) b) in *.
  set (N := 1000000) in *.
  set (q := a / (b * N)).
  pose proof (pow2_pos k1 Hk1) as Hp1.
  assert (Hq : q * (b * N) <= a < (q + 1) * (b * N)).
  { pose proof (Z.div_mod a (b * N) ltac:(lia)).
    pose proof (Z.mod_pos_bound a (b * N) ltac:(lia)). subst q. nia. }
  assert (Hq0 : 0 <= q) by (apply Z.div_pos; lia).
  assert (Hb2 : b < 2 * 2 ^ k1).
  { change (2 ^ 53) with (2 * 2 ^ 52) in *. nia. }
  assert (Hm1lo : q * N * 2 ^ k1 <= m1).
  { apply round_half_even_lower; [lia|]. nia. }
  assert (Hm1hi : m1 <= (q + 1) * N * 2 ^ k1 - 1).
  { apply round_half_even_below; [lia|]. nia. }
  assert (Hm1a : 2 ^ 52 <= m1) by (apply round_half_even_lower; lia).
  assert (Hm1b : m1 <= 2 ^ 53) by (apply round_half_even_upper; lia).
  assert (Hk1hi : k1 <= 105).
  { destruct (Z.le_gt_cases k1 105) as [|Hgt]; [lia|exfalso].
    assert (2 ^ 106 <= 2 ^ k1) by (apply Z.pow_le_mono_r; lia).
    change (2 ^ 106) with (2 ^ 53 * 2 ^ 53) in *. nia. }
  exists (Float m1 (- k1)).
  unfold float_div_int; cbn [mantissa exponent].
  rewrite Z.opp_involutive, (Z.max_l 0 (- k1)), (Z.max_r 0 k1), Z.pow_0_r, Z.mul_1_r by lia.
  set (B := N * 2 ^ k1).
  assert (HB : N <= B) by (subst B; nia).
  rewrite truediv_pos_eq by lia.
  pose proof (floor_log2_ratio_spec m1 B ltac:(lia) ltac:(lia)) as Hl. cbv zeta in Hl.
  assert (Hlr : -1022 <= floor_log2_ratio m1 B <= 52).
  { set (l := floor_log2_ratio m1 B) in *. split.
    - destruct (Z.le_gt_cases (-1022) l) as [|Hlt]; [lia|exfalso].
      rewrite Z.max_l, Z.max_r, Z.pow_0_r in Hl by lia.
      assert (2 ^ 1022 <= 2 ^ (- l)) by (apply Z.pow_le_mono_r; lia).
      assert (2 ^ k1 <= 2 ^ 105) by (apply Z.pow_le_mono_r; lia).
      assert (2 * (N * 2 ^ 105) < 2 ^ 52 * 2 ^ 1022) by (subst N; vm_compute; reflexivity).
      subst B. nia.
    - destruct (Z.le_gt_cases l 52) as [|Hgt]; [lia|exfalso].
      rewrite Z.max_r, Z.max_l, Z.pow_0_r in Hl by lia.
      assert (2 ^ 53 <= 2 ^ l) by (apply Z.pow_le_mono_r; lia).
      subst N. nia. }
  destruct (truediv_pos_normal_range m1 B ltac:(lia) ltac:(lia) Hlr)
    as (k2 & Hk2 & Hn2 & E2).
  rewrite E2. set (m2 := round_half_even (m1 * 2 ^ k2) B) in *.
  exists (Float m2 (- k2)). split; [reflexivity|]. split; [reflexivity|].
  pose proof (pow2_pos k2 Hk2) as Hp2.
  assert (HB2 : B < 2 * 2 ^ k2).
  { assert (B <= 2 * 2 ^ k2).
    { change (2 ^ 53) with (2 * 2 ^ 52) in *. nia. }
    assert (B <> 2 ^ (k2 + 1)) by (subst B N; apply million_not_pow2; lia).
    rewrite Z.pow_add_r in * by lia. change (2 ^ 1) with 2 in *. lia. }
  assert (Hm2lo : q * 2 ^ k2 <= m2).
  { apply round_half_even_lower; [lia|]. subst B. nia. }
  assert (Hm2hi : m2 <= (q + 1) * 2 ^ k2 - 1).
  { apply round_half_even_below; [lia|]. subst B. nia. }
  unfold int_of_float; cbn [mantissa exponent].
  destruct (Z.leb_spec 0 (- k2)).
  - assert (k2 = 0) by lia. subst k2. change (2 ^ 0) with 1 in *.
    rewrite Z.pow_0_r. lia.
  - rewrite Z.opp_involutive, Z.quot_div_nonneg by lia.
    symmetry. apply (Z.div_unique_pos m2 (2 ^ k2) q (m2 - q * 2 ^ k2)); lia.
Qed.

End FloatFacts.

(** ** AesAudioDecrypt: lengths, positions in the stream, statistics *)

Module AesMoreFacts.
Import AesAudioDecrypt AesFacts.
Section Chunk.
Context {channels : ChannelManager} {crypto : Cryptodome}.

Lemma plaintext_length k (runs : list (Z * list byte)) :
  Forall (keeps_length k) runs ->
  length (plaintext k runs) = length (mjoin (snd <$> runs)).
Proof.
  unfold plaintext. induction 1 as [|run runs Hk _ IH]; [reflexivity|].
  rewrite !fmap_cons. cbn [mjoin list_join]. rewrite !length_app.
  unfold keeps_length in Hk. rewrite Hk. f_equal. exact IH.
Qed.

Lemma decrypt_chunk_out_length (self : t) chunk_index buffer elapsed_ns out :
  returned (decrypt_chunk self chunk_index buffer elapsed_ns) = Ok out ->
  length out = length buffer.
Proof.
  intros Hout.
  destruct (truediv (CHUNK_SIZE * chunk_index) 16) as [q|e] eqn:Hq.
  - destruct (decrypt_chunk_runs self chunk_index buffer elapsed_ns q Hq)
      as (_ & Hok & _).
    destruct (Hok out Hout) as (_ & -> & Hall).
    by rewrite plaintext_length, expected_ciphers_join.
  - unfold decrypt_chunk in Hout. by rewrite Hq in Hout.
Qed.

Lemma decrypt_chunk_counted (d : t) chunk_index buffer elapsed_ns out :
  returned (decrypt_chunk d chunk_index buffer elapsed_ns) = Ok out ->
  self_after (decrypt_chunk d chunk_index buffer elapsed_ns)
  = {| key := key d;
       decrypt_count := decrypt_count d + 1;
       decrypt_total_time := decrypt_total_time d + elapsed_ns |}.
Proof.
  unfold decrypt_chunk. destruct (truediv _ _); [|done].
  by destruct (decrypt_loop _ _ _ _) as [l [e|]].
Qed.

Lemma decrypt_chunk_not_counted (d : t) chunk_index buffer elapsed_ns e :
  returned (decrypt_chunk d chunk_index buffer elapsed_ns) = Raise e ->
  self_after (decrypt_chunk d chunk_index buffer elapsed_ns) = d.
Proof.
  unfold decrypt_chunk. destruct (truediv _ _); [|done].
  by destruct (decrypt_loop _ _ _ _) as [l [x|]].
Qed.

(** A call of [decrypt_chunk] that returns gives back as many bytes as it
    was given, whatever the cipher does, and is counted once with the time
    it took; a call that raises leaves the decryptor as it was. *)
Theorem decrypt_chunk_returned (self : t) chunk_index buffer elapsed_ns :
  let r := decrypt_chunk self chunk_index buffer elapsed_ns in
  (forall out, returned r = Ok out ->
     length out = length buffer
     /\ self_after r
        = {| key := key self;
             decrypt_count := decrypt_count self + 1;
             decrypt_total_time := decrypt_total_time self + elapsed_ns |})
  /\ (forall e, returned r = Raise e -> self_after r = self).
Proof.
  cbv zeta. split.
  - intros out Hout. split.
    + by eapply decrypt_chunk_out_length.
    + by eapply decrypt_chunk_counted.
  - intros e. apply decrypt_chunk_not_counted.
Qed.

Lemma sub_block_of_chunk (data : list byte) (n i k : nat) :
  (k < n)%nat ->
  sub_block (take (4096 * n) (drop (i * (4096 * n)) data)) k
  = sub_block data (i * n + k).
Proof.
  intros Hk. unfold sub_block.
  rewrite (take_drop_commute _ 4096 (k * 4096)), take_take.
  rewrite Nat.min_l by lia.
  rewrite <- take_drop_commute, drop_drop. do 2 f_equal. lia.
Qed.

Lemma sub_block_count_le (buffer : list byte) (n : nat) :
  (length buffer <= 4096 * n)%nat -> (sub_block_count buffer <= n)%nat.
Proof.
  intros H. unfold sub_block_count.
  pose proof (Nat.div_mod_eq (length buffer + 4095) 4096).
  pose proof (Nat.mod_upper_bound (length buffer + 4095) 4096 ltac:(lia)).
  lia.
Qed.

(** The ciphers of chunk [i], seen from the whole stream. *)
Lemma chunk_ciphers (data : list byte) (n i : nat) :
  CHUNK_SIZE = 4096 * Z.of_nat n ->
  expected_ciphers (iv_int + CHUNK_SIZE * Z.of_nat i / 16) (stream_chunk data i)
  = cipher_runs iv_int data (i * n) (sub_block_count (stream_chunk data i)).
Proof.
  intros Hn. unfold expected_ciphers, cipher_runs, stream_chunk.
  assert (En : Z.to_nat CHUNK_SIZE = (4096 * n)%nat) by lia.
  rewrite En. set (chunk := take _ _).
  assert (Hc : (sub_block_count chunk <= n)%nat).
  { apply sub_block_count_le. subst chunk. rewrite length_take. lia. }
  replace (i * n)%nat with (i * n + 0)%nat at 1 by lia.
  rewrite <- fmap_add_seq, <- list_fmap_compose.
  apply list_fmap_ext. intros j k Hj. apply lookup_seq in Hj as [-> Hj].
  cbn [compose]. f_equal.
  - replace (CHUNK_SIZE * Z.of_nat i) with (256 * Z.of_nat n * Z.of_nat i * 16) by lia.
    rewrite Z.div_mul by lia. lia.
  - subst chunk. apply sub_block_of_chunk. lia.
Qed.

(** When a chunk is a whole number [n] of 4096-byte blocks, the cipher
    [decrypt_chunk] creates for a block depends on the place of the block
    in the stream only: block [b] of the stream, which is block [b - i * n]
    of chunk [i], is decrypted with the counter [IV + 256 * b], in
    whatever order the chunks arrive. *)
Theorem decrypt_chunk_block_positions (self : t) (data : list byte)
    (n i : nat) elapsed_ns :
  CHUNK_SIZE = 4096 * Z.of_nat n ->
  CHUNK_SIZE * Z.of_nat i < 2 ^ 53 ->
  let chunk := stream_chunk data i in
  let r := decrypt_chunk self (Z.of_nat i) chunk elapsed_ns in
  let runs := cipher_runs iv_int data (i * n) (sub_block_count chunk) in
  created r `prefix_of` runs
  /\ (forall out, returned r = Ok out ->
        created r = runs /\ out = plaintext (key self) runs)
  /\ (Forall (keeps_length (key self)) runs ->
        created r = runs /\ returned r = Ok (plaintext (key self) runs)).
Proof.
  intros Hn Hi chunk r runs.
  assert (Hi0 : 0 <= CHUNK_SIZE * Z.of_nat i) by nia.
  destruct (PyFacts.int_truediv_16 (CHUNK_SIZE * Z.of_nat i) (conj Hi0 Hi))
    as (q & Hq & Hint).
  pose proof (decrypt_chunk_runs self (Z.of_nat i) chunk elapsed_ns q Hq) as Hr.
  cbv zeta in Hr. rewrite Hint in Hr. subst chunk.
  rewrite (chunk_ciphers data n i Hn) in Hr. fold runs r in Hr.
  destruct Hr as (Hpre & Hok & Hall & _).
  split; [exact Hpre|]. split; [|exact Hall].
  intros out Hout. destruct (Hok out Hout) as (? & ? & _). done.
Qed.

(** An empty chunk: no cipher is created and the result is empty, and
    the call is counted all the same. *)
Theorem decrypt_chunk_empty (self : t) chunk_index elapsed_ns :
  0 <= CHUNK_SIZE * chunk_index < 2 ^ 53 ->
  decrypt_chunk self chunk_index [] elapsed_ns
  = {| self_after :=
         {| key := key self;
            decrypt_count := decrypt_count self + 1;
            decrypt_total_time := decrypt_total_time self + elapsed_ns |};
       returned := Ok [];
       created := [] |}.
Proof.
  intros Hi. destruct (PyFacts.int_truediv_16 _ Hi) as (q & Hq & _).
  unfold decrypt_chunk. rewrite Hq. reflexivity.
Qed.

Lemma decrypt_loop_key (d d' : t) buffer offsets : forall l,
  key d = key d' ->
  decrypt_loop d buffer offsets l = decrypt_loop d' buffer offsets l.
Proof.
  induction offsets as [|o rest IH]; intros l Hk; [reflexivity|].
  cbn [decrypt_loop]. rewrite Hk. destruct (negb _); [reflexivity|].
  by apply IH.
Qed.

Lemma decrypt_chunk_key (d : t) chunk_index buffer elapsed_ns :
  key (self_after (decrypt_chunk d chunk_index buffer elapsed_ns)) = key d.
Proof.
  unfold decrypt_chunk. destruct (truediv _ _); [|reflexivity].
  by destruct (decrypt_loop _ _ _ _) as [l [e|]].
Qed.

(** Whether a call returns depends on the key only, not on the
    statistics. *)
Lemma decrypt_chunk_returned_key (d d' : t) chunk_index buffer elapsed_ns :
  key d = key d' ->
  returned (decrypt_chunk d chunk_index buffer elapsed_ns)
  = returned (decrypt_chunk d' chunk_index buffer elapsed_ns).
Proof.
  intros Hk. unfold decrypt_chunk. destruct (truediv _ _); [|reflexivity].
  rewrite (decrypt_loop_key d d' _ _ _ Hk).
  by destruct (decrypt_loop _ _ _ _) as [l [e|]].
Qed.

Lemma decrypt_chunk_step (d : t) c :
  let d' := self_after (decrypt_chunk d c.1.1 c.1.2 c.2) in
  key d' = key d
  /\ decrypt_count d' = decrypt_count d + (if returns (key d) c then 1 else 0)
  /\ decrypt_total_time d'
     = decrypt_total_time d + (if returns (key d) c then c.2 else 0).
Proof.
  cbv zeta. split; [apply decrypt_chunk_key|].
  unfold returns.
  rewrite (decrypt_chunk_returned_key (new (key d)) d) by reflexivity.
  unfold decrypt_chunk. destruct (truediv _ _); [|cbn; lia].
  destruct (decrypt_loop _ _ _ _) as [l [e|]]; cbn; lia.
Qed.

(** After any series of calls, returning or raising, the key is the one
    the decryptor was built with, [decrypt_count] has grown by the number
    of the calls that returned and [decrypt_total_time] by the time those
    calls took: calls that raised are in neither. *)
Theorem after_calls_statistics (self : t) (calls : list call) :
  let good := List.filter (returns (key self)) calls in
  key (after_calls self calls) = key self
  /\ decrypt_count (after_calls self calls)
     = decrypt_count self + Z.of_nat (length good)
  /\ decrypt_total_time (after_calls self calls)
     = decrypt_total_time self + foldr Z.add 0 (snd <$> good).
Proof.
  revert self. induction calls as [|c calls IH]; intros self.
  - cbn. repeat split; lia.
  - destruct (decrypt_chunk_step self c) as (Hk & Hc & Ht).
    specialize (IH (self_after (decrypt_chunk self c.1.1 c.1.2 c.2))).
    cbv zeta in IH. rewrite Hk, Hc, Ht in IH.
    destruct IH as (IHk & IHc & IHt).
    assert (E : after_calls self (c :: calls)
                = after_calls (self_after (decrypt_chunk self c.1.1 c.1.2 c.2)) calls).
    { by destruct c as [[i b] e]. }
    cbv zeta. rewrite E, IHk, IHc, IHt. split; [done|].
    cbn [List.filter]. destruct (returns (key self) c); cbn; lia.
Qed.

End Chunk.

(** [decrypt_time_ms] never raises on a decryptor whose counters fit a
    float: it is 0 before the first call, which is where the division by
    zero would be, and afterwards the whole milliseconds of the average
    time of a call, [floor (total / (count * 1000000))], the two float
    divisions and the truncation losing nothing. *)
Theorem decrypt_time_ms_average (self : t) :
  0 <= decrypt_total_time self < 2 ^ 53 ->
  0 <= decrypt_count self < 2 ^ 53 ->
  decrypt_time_ms self
  = Ok (if decrypt_count self =? 0 then 0
        else decrypt_total_time self / (decrypt_count self * 1000000)).
Proof.
  intros Ht Hc. unfold decrypt_time_ms.
  destruct (Z.eqb_spec (decrypt_count self) 0) as [|Hne]; [reflexivity|].
  destruct (FloatFacts.int_truediv_million (decrypt_total_time self)
              (decrypt_count self) Ht ltac:(lia)) as (x & y & -> & Hy & <-).
  cbn [bind]. rewrite Hy. reflexivity.
Qed.

(** Chunk 1 of a stream cut in chunks of 8 KiB: its two sub-blocks are
    blocks 2 and 3 of the stream. *)
Lemma decrypt_chunk_block_positions_witness :
  created (decrypt_chunk (channels := Samples.chunk_8k)
             (crypto := Samples.zero_keystream) (new Samples.zero_key) 1
             (stream_chunk (channels := Samples.chunk_8k) Samples.short_stream 1) 0)
  = [(iv_int + 2 * 256, replicate 4096 x00);
     (iv_int + 3 * 256, replicate 904 xff)].
Proof.
  destruct (decrypt_chunk_block_positions (channels := Samples.chunk_8k)
              (crypto := Samples.zero_keystream) (new Samples.zero_key)
              Samples.short_stream 2 1 0) as (_ & _ & H).
  - reflexivity.
  - reflexivity.
  - destruct H as [E _].
    + apply Forall_forall. intros run _. reflexivity.
    + etransitivity; [exact E|]. vm_compute. reflexivity.
Defined.

(** An empty chunk 3. *)
Lemma decrypt_chunk_empty_witness :
  decrypt_count
    (self_after (decrypt_chunk (channels := Samples.chunk_128k)
                   (crypto := Samples.zero_keystream) Samples.timed_decrypt 3 [] 9))
  = 4.
Proof.
  rewrite (decrypt_chunk_empty (channels := Samples.chunk_128k)
             (crypto := Samples.zero_keystream) Samples.timed_decrypt 3 9).
  - reflexivity.
  - cbv. split; [discriminate | reflexivity].
Defined.

(** Three calls in 7 ms: 2 ms, the third of a millisecond dropped. *)
Lemma decrypt_time_ms_average_witness :
  decrypt_time_ms Samples.timed_decrypt = Ok 2.
Proof.
  rewrite (decrypt_time_ms_average Samples.timed_decrypt).
  - reflexivity.
  - cbv. split; [discriminate | reflexivity].
  - cbv. split; [discriminate | reflexivity].
Defined.

End AesMoreFacts.

(** ** CdnManager.get_audio_url and CdnManager.CdnUrl *)

Module CdnUrlMoreFacts.
Import CdnManager CdnUrlFacts.
Section Urls.
Context {urllib : UrlLib} {session : Session}.




(** The resolver never raises [AttributeError]. *)
Lemma get_audio_url_error (file_id : option (list byte)) :
  (get_audio_url file_id).1 <> Raise AttributeError.
Proof.
  unfold get_audio_url. destruct (negb _); [done|].
  destruct (content _) as [body|]; [|done].
  destruct (result_code _); [|done|done].
  unfold random_choice. by destruct (_ !! _).
Qed.

(** The URL is stored before anything can fail. *)
Lemma set_url_stores (self : CdnUrl) (u : string) :
  _url (after (set_url self u)) = Some u.
Proof.
  destruct self as [f e0 u0]. unfold set_url.
  cbn [with_url __fileId _expiration _url].
  destruct f as [fid|]; [|done]. by repeat case_match.
Qed.

(** The expiration is assigned when [set_url] returns and untouched when
    it raises. *)
Lemma set_url_expiration (self : CdnUrl) (u : string) :
  match outcome (set_url self u) with
  | Ok _ => is_Some (_expiration (after (set_url self u)))
  | Raise _ => _expiration (after (set_url self u)) = _expiration self
  end.
Proof.
  destruct self as [f e0 u0]. unfold set_url.
  cbn [with_url __fileId _expiration _url].
  destruct f as [fid|]; [|by cbn; eauto].
  destruct (urlparse_query u) as [query|]; [|done].
  destruct (token_str_of _) as [token|x]; [|done].
  destruct (_ && _).
  - destruct (find_expire_at _) as [[n|]|x]; by cbn; eauto.
  - destruct (str_index "_"%char _) as [i|]; [|by cbn; eauto].
    destruct (int_of_str _) as [n|x]; by cbn; eauto.
Qed.

(** [set_url] always stores the URL it is given, also when it raises,
    and never calls the resolver.  When it returns, the expiration is -1
    or a whole number of seconds in milliseconds.  It raises nothing but
    [ValueError], which is that of [urlparse] on a URL it refuses or that
    of [int], and the [IndexError] of an empty token list; and then the
    expiration is still that of the URL before: the object holds the new
    URL with the old expiry.  With a file id, a URL that [urlparse]
    refuses always makes it raise; without one it never raises.  It warns
    only when it sets the expiration to -1. *)
Theorem set_url_effect (self : CdnUrl) (u : string) :
  _url (after (set_url self u)) = Some u
  /\ __fileId (after (set_url self u)) = __fileId self
  /\ resolved (set_url self u) = []
  /\ (is_Some (__fileId self) -> urlparse_query u = None ->
        outcome (set_url self u) = Raise ValueError)
  /\ (__fileId self = None -> outcome (set_url self u) = Ok tt)
  /\ (outcome (set_url self u) = Ok tt ->
        exists e, _expiration (after (set_url self u)) = Some e
                  /\ (e = -1 \/ e mod 1000 = 0))
  /\ (forall x, outcome (set_url self u) = Raise x ->
        (x = ValueError \/ x = IndexError)
        /\ _expiration (after (set_url self u)) = _expiration self
        /\ logged (set_url self u) = [])
  /\ (logged (set_url self u) <> [] ->
        _expiration (after (set_url self u)) = Some (-1)).
Proof.
  destruct self as [f e0 u0]. unfold set_url.
  cbn [with_url __fileId _expiration _url].
  destruct f as [fid|].
  2:{ cbn. splits; try done.
      intros _. exists (-1). by split; [|left]. }
  destruct (urlparse_query u) as [query|].
  2:{ cbn. splits; try done. intros y [= <-]. splits; try done. by left. }
  destruct (token_str_of _) as [token|x] eqn:Ht.
  2:{ cbn. splits; try done. intros y [= <-]. splits; try done. right.
      unfold token_str_of in Ht. destruct (_ !! _) as [l|]; [|done].
      unfold list_get in Ht. repeat case_match; congruence. }
  destruct (_ && _).
  - destruct (find_expire_at _) as [[n|]|x] eqn:Hf; cbn.
    + splits; try done. intros _. eexists. split; [done|]. right.
      apply Z.mod_mul. lia.
    + splits; try done. intros _. exists (-1). by split; [|left].
    + splits; try done. intros y [= <-]. splits; try done. left.
      clear Ht. revert Hf. generalize (str_split "~"%char token). intros l.
      induction l as [|s l IH]; cbn; [done|].
      destruct (str_index "="%char s) as [i|]; [|exact IH].
      destruct (String.eqb _ _); [|exact IH].
      unfold int_of_str. destruct (parse_int _); cbn; congruence.
  - destruct (str_index "_"%char _) as [i|]; cbn.
    + destruct (int_of_str _) as [n|x] eqn:Hi; cbn.
      * splits; try done. intros _. eexists. split; [done|]. right.
        apply Z.mod_mul. lia.
      * splits; try done. intros y [= <-]. splits; try done. left.
        unfold int_of_str in Hi. destruct (parse_int _); congruence.
    + splits; try done. intros _. exists (-1). by split; [|left].
Qed.

(** Every [CdnUrl] a program can hold has its URL and its expiration
    assigned. *)
Lemma reachable_assigned (c : CdnUrl) :
  reachable c -> is_Some (_expiration c) /\ is_Some (_url c).
Proof.
  induction 1 as [file_id u Hok | c u _ [IHe IHu] | c now_ms _ [IHe IHu]].
  - unfold CdnUrl_init in *.
    pose proof (set_url_expiration
                  {| __fileId := file_id; _expiration := None; _url := None |} u) as He.
    rewrite Hok in He. rewrite set_url_stores. by split; [|eexists].
  - rewrite set_url_stores. split; [|by eexists].
    pose proof (set_url_expiration c u) as He.
    destruct (outcome (set_url c u)); [done|by rewrite He].
  - rewrite url_keeps_expiration. split; [done|].
    unfold url. destruct IHe as [e ->]. destruct IHu as [u0 Hu0].
    destruct (_ =? _); [by rewrite Hu0; cbn; rewrite Hu0|].
    destruct (_ <=? _); [|by cbn; rewrite Hu0].
    destruct (get_audio_url _) as [[fresh|x] l]; cbn; [by eexists|by rewrite Hu0].
Qed.

(** On a [CdnUrl] a program can hold, [url] raises only what the
    resolver raises, never [AttributeError]: then the resolver was called
    once, with the file id of the object, and the object is as it was,
    the old URL still in place. *)
Theorem url_failure (c : CdnUrl) now_ms x :
  reachable c ->
  outcome (url c now_ms) = Raise x ->
  (get_audio_url (__fileId c)).1 = Raise x
  /\ resolved (url c now_ms) = [__fileId c]
  /\ after (url c now_ms) = c
  /\ x <> AttributeError.
Proof.
  intros Hc. destruct (reachable_assigned c Hc) as [[e He] [u0 Hu0]].
  unfold url. rewrite He, Hu0.
  destruct (_ =? _); [done|]. destruct (_ <=? _); [|done].
  pose proof (get_audio_url_error (__fileId c)) as Hg.
  destruct (get_audio_url (__fileId c)) as [[fresh|y] l] eqn:Hr; cbn; [done|].
  intros [= ->]. splits; try done. by intros ->.
Qed.

(** A URL that never expires, or whose expiry is more than five minutes
    away, is not refreshed: [url] returns without calling the resolver or
    writing to the log, and leaves the object as it was. *)
Theorem url_not_due (c : CdnUrl) now_ms :
  reachable c ->
  (_expiration c = Some (-1)
   \/ exists e, _expiration c = Some e /\ now_ms + 300000 < e) ->
  after (url c now_ms) = c
  /\ resolved (url c now_ms) = [] /\ logged (url c now_ms) = []
  /\ exists v, outcome (url c now_ms) = Ok v.
Proof.
  intros Hc Hd. destruct (reachable_assigned c Hc) as [_ [u0 Hu0]].
  unfold url. destruct Hd as [He|(e & He & Hlt)]; rewrite He.
  - cbn. rewrite Hu0. cbn. by eauto.
  - destruct (Z.eqb_spec e (-1)); [rewrite Hu0; cbn; by eauto|].
    destruct (Z.leb_spec e (now_ms + 5 * 60 * 1000)); [lia|]. cbn. by eauto.
Qed.

(** A signed URL is refreshed from five minutes before its expiry on, and
    not before: when [urlparse] accepts the URL and [set_url] has read the
    expiry [n] (in seconds) from the first [exp=] segment of the token,
    [url] calls the resolver, once and with the file id, exactly when
    [n * 1000 <= now + 300000], no expiry being mistaken for the -1 that
    stands for never. *)
Theorem signed_url_refresh_window (self : CdnUrl) (u : string) fid query token
    more before value rest n now_ms :
  __fileId self = Some fid ->
  urlparse_query u = Some query ->
  parse_qs query !! "__token__" = Some (token :: more) ->
  token <> "" -> token <> "None" ->
  str_split "~" token = before ++ ("exp=" +:+ value) :: rest ->
  Forall not_exp before ->
  parse_int value = Some n ->
  outcome (set_url self u) = Ok tt
  /\ resolved (url (after (set_url self u)) now_ms)
     = if n * 1000 <=? now_ms + 300000 then [Some fid] else [].
Proof.
  intros Hfid Hq Htok Hne Hnn Hsplit Hbefore Hint.
  destruct self as [f e0 u0]. cbn in Hfid. subst f.
  unfold set_url. cbn [with_url __fileId].
  rewrite Hq, Htok. cbn [token_str_of]. rewrite list_get_0.
  rewrite (usable_token _ Hne Hnn).
  rewrite Hsplit, (find_expire_at_first _ _ _ Hbefore).
  rewrite (int_of_str_parsed _ _ Hint). cbn [bind after outcome].
  split; [reflexivity|].
  unfold url. cbn [with_expiration _expiration __fileId _url].
  destruct (Z.eqb_spec (n * 1000) (-1)) as [E|_]; [lia|].
  change (5 * 60 * 1000) with 300000.
  destruct (n * 1000 <=? now_ms + 300000); [|reflexivity].
  cbn [with_url __fileId].
  by destruct (get_audio_url (Some fid)) as [[fresh|x] l].
Qed.

End Urls.

(** A URL that expires at second 1000, asked for at second 900, when the
    resolver has no URL to offer. *)
Lemma url_failure_witness :
  after (url (session := Samples.answering (Samples.response 206 None []))
           Samples.signed_url 900000)
  = Samples.signed_url.
Proof.
  destruct (url_failure (urllib := Samples.plain_urls)
              (session := Samples.answering (Samples.response 206 None []))
              Samples.signed_url 900000 IndexError) as (_ & _ & H & _).
  - apply (reach_init (urllib := Samples.plain_urls) (Some [x01])
             "https://cdn.example/audio/1?__token__=exp=1000~hmac=aa").
    vm_compute. reflexivity.
  - vm_compute. reflexivity.
  - exact H.
Defined.

(** The same URL asked for at second 100. *)
Lemma url_not_due_witness :
  resolved (url (session := Samples.probe_session "5000")
              Samples.signed_url 100000)
  = [].
Proof.
  destruct (url_not_due (urllib := Samples.plain_urls)
              (session := Samples.probe_session "5000")
              Samples.signed_url 100000) as (_ & H & _).
  - apply (reach_init (urllib := Samples.plain_urls) (Some [x01])
             "https://cdn.example/audio/1?__token__=exp=1000~hmac=aa").
    vm_compute. reflexivity.
  - right. exists 1000000. split; reflexivity.
  - exact H.
Defined.

(** The token [exp=1000~hmac=aa], asked for 100 seconds before the
    expiry. *)
Lemma signed_url_refresh_window_witness :
  resolved
    (url (session := Samples.probe_session "5000")
       (after (set_url (urllib := Samples.plain_urls)
                 {| __fileId := Some [x01]; _expiration := None; _url := None |}
                 "https://cdn.example/audio/1?__token__=exp=1000~hmac=aa"))
       900000)
  = [Some [x01]].
Proof.
  destruct (signed_url_refresh_window (urllib := Samples.plain_urls)
              (session := Samples.probe_session "5000")
              {| __fileId := Some [x01]; _expiration := None; _url := None |}
              "https://cdn.example/audio/1?__token__=exp=1000~hmac=aa"
              [x01] "__token__=exp=1000~hmac=aa" "exp=1000~hmac=aa" [] []
              "1000" ["hmac=aa"] 1000 900000)
    as [_ H].
  - reflexivity.
  - reflexivity.
  - vm_compute. reflexivity.
  - discriminate.
  - discriminate.
  - reflexivity.
  - constructor.
  - reflexivity.
  - exact H.
Defined.

End CdnUrlMoreFacts.

(** ** CdnManager.Streamer: chunks, requests and the constructor *)

Module StreamerMoreFacts.
Import CdnManager StreamerFacts.

Lemma list_index_length {A B} (l : list A) (l' : list B) i :
  length l = length l' -> list_index l i = list_index l' i.
Proof. unfold list_index. by intros ->. Qed.

Lemma list_index_lt {A} (l : list A) i k :
  list_index l i = Some k -> (k < length l)%nat.
Proof.
  unfold list_index.
  destruct (_ && _) eqn:E1; [intros [= <-]; lia|].
  destruct (_ && _) eqn:E2 in |- *; [intros [= <-]; lia|done].
Qed.

Lemma list_index_in_range {A} (l : list A) i :
  0 <= i < Z.of_nat (length l) -> list_index l i = Some (Z.to_nat i).
Proof.
  intros H. unfold list_index.
  destruct (Z.leb_spec 0 i); [|lia].
  destruct (Z.ltb_spec i (Z.of_nat (length l))); [done|lia].
Qed.

Lemma list_index_out_of_range {A} (l : list A) i :
  i < - Z.of_nat (length l) \/ Z.of_nat (length l) <= i -> list_index l i = None.
Proof.
  intros H. unfold list_index.
  destruct (Z.leb_spec 0 i), (Z.ltb_spec i (Z.of_nat (length l))),
    (Z.leb_spec (- Z.of_nat (length l)) i), (Z.ltb_spec i 0); cbn; try done; lia.
Qed.

Section Streaming.
Context {channels : ChannelManager} {crypto : Cryptodome} {session : Session}.

(** What [write_chunk] does to an open stream, step by step. *)
Lemma write_chunk_open (self : Streamer) chunk chunk_index cached elapsed_ns
    st n buf av :
  _internalStream self = Some st -> closed st = false ->
  _chunks self = Some n -> _buffer self = Some buf ->
  _available self = Some av -> length av = length buf ->
  let dr := audio_decrypt_chunk (_audioDecrypt self) chunk_index chunk elapsed_ns in
  let logged := log_debug self
                  (VFormat "Chunk {}/{} completed, cached: {}, stream: {}"
                     [VInt (chunk_index + 1); VInt n; VBool cached; describe self]) in
  write_chunk self chunk chunk_index cached elapsed_ns
  = match dr.2, list_index buf chunk_index with
    | Raise e, _ => (set_audioDecrypt logged dr.1, Raise e)
    | Ok data, None => (set_audioDecrypt logged dr.1, Raise IndexError)
    | Ok data, Some k =>
        (set_internalStream
           (set_available
              (set_buffer (set_audioDecrypt logged dr.1) (<[k := data]> buf))
              (<[k := true]> av))
           {| closed := false; notified := notified st ++ [chunk_index] |},
         Ok tt)
    end.
Proof.
  intros Hi Hc Hn Hb Ha Hl dr logged. subst dr logged.
  unfold write_chunk. rewrite Hi, Hc, Hn.
  cbn [log_debug _audioDecrypt].
  destruct (audio_decrypt_chunk _ _ _ _) as [d [data|e]] eqn:Hd; cbn [fst snd];
    [|reflexivity].
  cbn [set_audioDecrypt _buffer]. change (_buffer (log_debug self _)) with (_buffer self). rewrite Hb.
  unfold list_set. destruct (list_index buf chunk_index) as [k|] eqn:Hk; [|done].
  unfold notify_chunk_available.
  cbn [set_buffer set_audioDecrypt log_debug _available _internalStream]. rewrite Ha, Hi.
  unfold list_set. rewrite (list_index_length av buf) by done. rewrite Hk.
  rewrite Hc. reflexivity.
Qed.

Lemma well_formed_lengths (s : Streamer) n buf :
  well_formed s -> _chunks s = Some n -> _buffer s = Some buf ->
  length buf = Z.to_nat n
  /\ exists av st, _available s = Some av /\ length av = length buf
       /\ _internalStream s = Some st.
Proof.
  intros (n' & buf' & av & rq & st & Hn & Hb & Ha & Hr & Hi & Lb & La & Lr) Hn' Hb'.
  rewrite Hn in Hn'. rewrite Hb in Hb'. injection Hn' as <-. injection Hb' as <-.
  split; [done|]. exists av, st. splits; try done. lia.
Qed.

(** On an open stream with all its arrays, [write_chunk] with an index
    among the chunks and a decryptor that returns stores the decrypted
    data in the slot of that chunk and nowhere else, announces the chunk,
    and writes one debug record; the size, the chunk count, the URL and
    the requested marks stay as they were. *)
Theorem write_chunk_stores (self : Streamer) chunk chunk_index cached elapsed_ns
    st n buf d data :
  well_formed self ->
  _internalStream self = Some st -> closed st = false ->
  _chunks self = Some n -> _buffer self = Some buf ->
  0 <= chunk_index < n ->
  audio_decrypt_chunk (_audioDecrypt self) chunk_index chunk elapsed_ns
  = (d, Ok data) ->
  let r := write_chunk self chunk chunk_index cached elapsed_ns in
  r.2 = Ok tt
  /\ _buffer r.1 = Some (<[Z.to_nat chunk_index := data]> buf)
  /\ _requested r.1 = _requested self
  /\ _size r.1 = _size self /\ _chunks r.1 = Some n
  /\ _cdnUrl r.1 = _cdnUrl self
  /\ _audioDecrypt r.1 = d
  /\ _internalStream r.1
     = Some {| closed := false; notified := notified st ++ [chunk_index] |}
  /\ session_log r.1
     = session_log self
       ++ [Debug (VFormat "Chunk {}/{} completed, cached: {}, stream: {}"
                    [VInt (chunk_index + 1); VInt n; VBool cached;
                     describe self])]
  /\ well_formed r.1.
Proof.
  intros Hwf Hi Hc Hn Hb Hidx Hd r.
  destruct (well_formed_lengths self n buf Hwf Hn Hb) as (Lb & av & st' & Ha & La & Hi').
  subst r.
  rewrite (write_chunk_open self chunk chunk_index cached elapsed_ns st n buf av)
    by done.
  rewrite Hd. cbn [fst snd].
  rewrite list_index_in_range by lia.
  cbn. splits; try done.
  destruct Hwf as (n' & buf' & av' & rq & st'' & Hn' & Hb' & Ha' & Hr & Hi'' & Lb' & La' & Lr).
  exists n, (<[Z.to_nat chunk_index := data]> buf), (<[Z.to_nat chunk_index := true]> av), rq.
  eexists. cbn. rewrite !length_insert.
  assert (n' = n) by congruence. subst n'.
  splits; try done. lia.
Qed.

(** When [write_chunk] raises on an open stream, nothing was stored and
    nothing announced, yet the debug record was written and the decryptor
    has run: either the decryptor raised, or it returned and the index is
    outside the buffer, which is the [IndexError] of the assignment. *)
Theorem write_chunk_raises (self : Streamer) chunk chunk_index cached elapsed_ns
    st n e :
  well_formed self ->
  _internalStream self = Some st -> closed st = false ->
  _chunks self = Some n ->
  let dr := audio_decrypt_chunk (_audioDecrypt self) chunk_index chunk elapsed_ns in
  let r := write_chunk self chunk chunk_index cached elapsed_ns in
  r.2 = Raise e ->
  (dr.2 = Raise e
   \/ e = IndexError /\ (exists data, dr.2 = Ok data)
      /\ (chunk_index < - n \/ n <= chunk_index))
  /\ _audioDecrypt r.1 = dr.1
  /\ _buffer r.1 = _buffer self
  /\ _available r.1 = _available self
  /\ _requested r.1 = _requested self
  /\ _internalStream r.1 = Some st
  /\ session_log r.1
     = session_log self
       ++ [Debug (VFormat "Chunk {}/{} completed, cached: {}, stream: {}"
                    [VInt (chunk_index + 1); VInt n; VBool cached;
                     describe self])]
  /\ well_formed r.1.
Proof.
  intros Hwf Hi Hc Hn dr r.
  pose proof Hwf as (n' & buf & av & rq & st' & Hn' & Hb & Ha & Hr & Hi' & Lb & La & Lr).
  assert (n' = n) by congruence. subst n'.
  subst r dr.
  rewrite (write_chunk_open self chunk chunk_index cached elapsed_ns st n buf av)
    by (done || lia).
  destruct (audio_decrypt_chunk _ _ _ _) as [d [data|x]]; cbn [fst snd].
  - destruct (list_index buf chunk_index) as [k|] eqn:Hk; cbn [fst snd]; [done|].
    intros [= <-]. cbn. splits; try done; [].
    right. splits; [done|by eexists|].
    unfold list_index in Hk.
    destruct (Z.leb_spec 0 chunk_index), (Z.ltb_spec chunk_index (Z.of_nat (length buf))),
      (Z.leb_spec (- Z.of_nat (length buf)) chunk_index), (Z.ltb_spec chunk_index 0);
      cbn in Hk; try done; lia.
  - intros [= <-]. cbn. splits; try done; []. by left.
Qed.

Lemma write_chunk_well_formed (self : Streamer) chunk chunk_index cached elapsed_ns :
  well_formed self ->
  well_formed (write_chunk self chunk chunk_index cached elapsed_ns).1.
Proof.
  intros Hwf.
  pose proof Hwf as (n & buf & av & rq & st & Hn & Hb & Ha & Hr & Hi & Lb & La & Lr).
  destruct (closed st) eqn:Hc.
  { unfold write_chunk. by rewrite Hi, Hc. }
  rewrite (write_chunk_open self chunk chunk_index cached elapsed_ns st n buf av)
    by (done || lia).
  destruct (audio_decrypt_chunk _ _ _ _) as [d [data|x]]; cbn [fst snd].
  - destruct (list_index buf chunk_index) as [k|] eqn:Hk; cbn [fst snd].
    + exists n, (<[k := data]> buf), (<[k := true]> av), rq. eexists. cbn.
      rewrite !length_insert. done.
    + exists n, buf, av, rq, st. cbn. done.
  - exists n, buf, av, rq, st. cbn. done.
Qed.

Lemma write_chunk_frame (self : Streamer) chunk chunk_index cached elapsed_ns :
  let r := write_chunk self chunk chunk_index cached elapsed_ns in
  _cdnUrl r.1 = _cdnUrl self /\ _streamId r.1 = _streamId self
  /\ _requested r.1 = _requested self.
Proof.
  cbv zeta. unfold write_chunk.
  destruct (_internalStream self) as [st|]; [|done].
  destruct (closed st); [done|].
  destruct (_chunks self) as [n|]; [|done].
  destruct (audio_decrypt_chunk _ _ _ _) as [d [data|e]]; [|done].
  cbn [set_audioDecrypt log_debug _buffer].
  destruct (_buffer self) as [b|]; [|done].
  destruct (list_set b chunk_index data) as [b'|e]; [|done].
  unfold notify_chunk_available. by repeat case_match.
Qed.

Lemma request_chunk_cases (self : Streamer) index elapsed_ns :
  (exists e, request self (Some index) None None = Raise e
             /\ request_chunk self index elapsed_ns = (self, Raise e))
  \/ (exists resp, request self (Some index) None None = Ok resp
        /\ request_chunk self index elapsed_ns
           = write_chunk self (InternalResponse._buffer resp) index false elapsed_ns).
Proof.
  unfold request_chunk.
  destruct (request self (Some index) None None) as [resp|e]; [right|left]; by eauto.
Qed.

(** The [Streamer] its constructor returns, field by field. *)
Lemma Streamer_init_returns stream_id (cdn_url : CdnUrl) audio_decrypt elapsed_ns s :
  Streamer_init stream_id cdn_url audio_decrypt elapsed_ns = (s, Ok tt) ->
  exists u body size quotient d data,
    _url cdn_url = Some u
    /\ status_code (client_get u (Some (Some 0, Some (CHUNK_SIZE - 1)))) = 206
    /\ content (client_get u (Some (Some 0, Some (CHUNK_SIZE - 1)))) = Some body
    /\ truediv size CHUNK_SIZE = Ok quotient
    /\ 1 <= math_ceil quotient
    /\ audio_decrypt_chunk audio_decrypt 0 body elapsed_ns = (d, Ok data)
    /\ s = {| _streamId := stream_id; _audioDecrypt := d; _cdnUrl := cdn_url;
              _size := Some size; _chunks := Some (math_ceil quotient);
              _available :=
                Some (<[0%nat := true]> (replicate (Z.to_nat (math_ceil quotient)) false));
              _requested :=
                Some (<[0%nat := true]> (replicate (Z.to_nat (math_ceil quotient)) false));
              _buffer :=
                Some (<[0%nat := data]> (replicate (Z.to_nat (math_ceil quotient)) []));
              _internalStream := Some {| closed := false; notified := [0] |};
              session_log :=
                [Debug (VFormat "Chunk {}/{} completed, cached: {}, stream: {}"
                          [VInt 1; VInt (math_ceil quotient); VBool false;
                           match stream_id with
                           | Episode gid => VFormat "episode_gid: {}" [VStr gid]
                           | File file_id => VFormat "file_id: {}" [VBytes file_id]
                           end])] |}.
Proof.
  unfold Streamer_init, request. cbn [_cdnUrl].
  destruct (_url cdn_url) as [u|]; [|done].
  destruct (Z.eqb_spec (status_code (client_get u (Some (Some 0, Some (CHUNK_SIZE - 1))))) 206)
    as [Hs|]; cbn [negb]; [|done].
  destruct (content _) as [body|] eqn:Hb; [|done].
  cbn [InternalResponse._headers InternalResponse._buffer].
  destruct (_ !! "Content-Range") as [content_range|]; [|done].
  destruct (bind _ _) as [size|]; [|done].
  destruct (truediv size CHUNK_SIZE) as [q|] eqn:Hq; [|done].
  set (n := math_ceil q).
  unfold list_set at 1.
  destruct (list_index (replicate (Z.to_nat n) false) 0) as [k|] eqn:Hk; [|done].
  assert (Hn : 1 <= n).
  { apply list_index_lt in Hk. rewrite length_replicate in Hk. lia. }
  assert (k = 0%nat) as ->.
  { rewrite list_index_in_range in Hk by (rewrite length_replicate; lia).
    by injection Hk as <-. }
  match goal with
  | |- write_chunk ?s0 _ _ _ _ = _ -> _ =>
      rewrite (write_chunk_open s0 body 0 false elapsed_ns
                 {| closed := false; notified := [] |} n
                 (replicate (Z.to_nat n) []) (replicate (Z.to_nat n) false))
        by (cbn; rewrite ?length_replicate; done)
  end.
  cbn [fst snd set_requested set_internalStream set_buffer set_available
       set_chunks set_size _audioDecrypt].
  destruct (audio_decrypt_chunk audio_decrypt 0 body elapsed_ns) as [d [data|e]] eqn:Hd;
    cbn [fst snd]; [|done].
  rewrite list_index_in_range by (rewrite length_replicate; lia).
  intros [= <-]. exists u, body, size, q, d, data.
  splits; try done.
Qed.

Lemma Streamer_init_well_formed stream_id (cdn_url : CdnUrl) audio_decrypt elapsed_ns s :
  Streamer_init stream_id cdn_url audio_decrypt elapsed_ns = (s, Ok tt) ->
  well_formed s.
Proof.
  intros H. apply Streamer_init_returns in H
    as (u & body & size & q & d & data & _ & _ & _ & _ & Hn & _ & ->).
  do 5 eexists. cbn. splits; try done; by rewrite length_insert, length_replicate.
Qed.

(** When the constructor returns, the stream has at least one chunk;
    the first slot of the buffer holds the body of the probe as the
    decryptor returned it, all other slots are empty; chunk 0 is the only
    one marked as requested and the only one announced; the stream is
    open; and one debug record was written. *)
Theorem Streamer_init_first_chunk stream_id (cdn_url : CdnUrl) audio_decrypt
    elapsed_ns s :
  Streamer_init stream_id cdn_url audio_decrypt elapsed_ns = (s, Ok tt) ->
  exists u body n data,
    _url cdn_url = Some u
    /\ content (client_get u (Some (Some 0, Some (CHUNK_SIZE - 1)))) = Some body
    /\ (audio_decrypt_chunk audio_decrypt 0 body elapsed_ns).2 = Ok data
    /\ _audioDecrypt s = (audio_decrypt_chunk audio_decrypt 0 body elapsed_ns).1
    /\ _chunks s = Some n /\ 1 <= n
    /\ _buffer s = Some (data :: replicate (Z.to_nat n - 1) [])
    /\ _requested s = Some (true :: replicate (Z.to_nat n - 1) false)
    /\ stream s = Ok {| closed := false; notified := [0] |}
    /\ _cdnUrl s = cdn_url /\ _streamId s = stream_id
    /\ length (session_log s) = 1%nat.
Proof.
  intros H. apply Streamer_init_returns in H
    as (u & body & size & q & d & data & Hu & _ & Hb & _ & Hn & Hd & ->).
  exists u, body, (math_ceil q), data. rewrite Hd. cbn.
  destruct (Z.to_nat (math_ceil q)) as [|m] eqn:E; [lia|].
  cbn. rewrite Nat.sub_0_r. splits; done.
Qed.

(** Every [Streamer] a program can hold, after any calls of
    [write_chunk] and [request_chunk], has its three arrays with one slot
    per chunk, at least one chunk, a size, a URL to request from and a
    stream to hand out; and no call has changed the requested marks:
    [request_chunk] does not mark the chunk it fetches. *)
Theorem served_keeps_shape (s : Streamer) :
  served s ->
  well_formed s
  /\ (exists n, _chunks s = Some n /\ 1 <= n
        /\ _requested s = Some (true :: replicate (Z.to_nat n - 1) false))
  /\ is_Some (_size s)
  /\ is_Some (_url (_cdnUrl s))
  /\ exists st, stream s = Ok st.
Proof.
  intros Hs.
  assert (Hwf : well_formed s).
  { induction Hs as [sid cdn d t s H | s chunk i c t _ IH | s i t _ IH].
    - by eapply Streamer_init_well_formed.
    - by apply write_chunk_well_formed.
    - destruct (request_chunk_cases s i t) as [(e & _ & ->)|(resp & _ & ->)];
        [done|by apply write_chunk_well_formed]. }
  split; [exact Hwf|].
  assert (Hst : exists st, stream s = Ok st).
  { destruct Hwf as (? & ? & ? & ? & st & _ & _ & _ & _ & Hi & _).
    exists st. unfold stream. by rewrite Hi. }
  splits; [| | |exact Hst]; clear Hwf Hst.
  - induction Hs as [sid cdn d t s H | s chunk i c t _ IH | s i t _ IH].
    + apply Streamer_init_returns in H
        as (u & body & size & q & d' & data & _ & _ & _ & _ & Hn & _ & ->).
      exists (math_ceil q). cbn.
      destruct (Z.to_nat (math_ceil q)) as [|m] eqn:E; [lia|].
      cbn. by rewrite Nat.sub_0_r.
    + destruct (write_chunk_keeps_size s chunk i c t) as [_ ->].
      destruct (write_chunk_frame s chunk i c t) as (_ & _ & ->). exact IH.
    + destruct (request_chunk_cases s i t) as [(e & _ & ->)|(resp & _ & ->)];
        [exact IH|].
      destruct (write_chunk_keeps_size s (InternalResponse._buffer resp) i false t)
        as [_ ->].
      destruct (write_chunk_frame s (InternalResponse._buffer resp) i false t)
        as (_ & _ & ->). exact IH.
  - induction Hs as [sid cdn d t s H | s chunk i c t _ IH | s i t _ IH].
    + apply Streamer_init_returns in H
        as (u & body & size & q & d' & data & _ & _ & _ & _ & _ & _ & ->).
      by eexists.
    + by destruct (write_chunk_keeps_size s chunk i c t) as [-> _].
    + destruct (request_chunk_cases s i t) as [(e & _ & ->)|(resp & _ & ->)];
        [exact IH|].
      by destruct (write_chunk_keeps_size s (InternalResponse._buffer resp) i false t)
        as [-> _].
  - induction Hs as [sid cdn d t s H | s chunk i c t _ IH | s i t _ IH].
    + apply Streamer_init_returns in H
        as (u & body & size & q & d' & data & Hu & _ & _ & _ & _ & _ & ->).
      by eexists.
    + by destruct (write_chunk_frame s chunk i c t) as (-> & _ & _).
    + destruct (request_chunk_cases s i t) as [(e & _ & ->)|(resp & _ & ->)];
        [exact IH|].
      by destruct (write_chunk_frame s (InternalResponse._buffer resp) i false t)
        as (-> & _ & _).
Qed.

(** [request_chunk] asks for the bytes
    [CHUNK_SIZE * index .. (index + 1) * CHUNK_SIZE - 1] of the URL as it
    stands, and when the answer is not 206, or has no body, it raises
    [IOError] and leaves the [Streamer] untouched: nothing is logged,
    decrypted or stored.  Otherwise it is [write_chunk] on the body. *)
Theorem request_chunk_refused (self : Streamer) index elapsed_ns u :
  _url (_cdnUrl self) = Some u ->
  let resp := client_get u (Some (Some (CHUNK_SIZE * index),
                                  Some ((index + 1) * CHUNK_SIZE - 1))) in
  (status_code resp <> 206 ->
     request_chunk self index elapsed_ns
     = (self, Raise (IOError (VInt (status_code resp)))))
  /\ (status_code resp = 206 -> content resp = None ->
        request_chunk self index elapsed_ns
        = (self, Raise (IOError (VStr "Response body is empty!"))))
  /\ (forall body, status_code resp = 206 -> content resp = Some body ->
        request_chunk self index elapsed_ns
        = write_chunk self body index false elapsed_ns).
Proof.
  intros Hu resp. subst resp. unfold request_chunk, request. rewrite Hu.
  destruct (Z.eqb_spec (status_code (client_get u (Some (Some (CHUNK_SIZE * index),
              Some ((index + 1) * CHUNK_SIZE - 1))))) 206) as [E|E]; cbn [negb].
  - splits; [done| |].
    + intros _ ->. done.
    + intros body _ ->. done.
  - splits; [done|done|]. intros body E'. done.
Qed.

End Streaming.

(** The second chunk of the sample file arrives. *)
Lemma write_chunk_stores_witness :
  _buffer
    (write_chunk (channels := Samples.chunk_128k)
       (crypto := Samples.zero_keystream) Samples.opened_file
       [x01; x02] 1 false 7).1
  = Some [[x4f; x67; x67; x53]; [x01; x02]].
Proof.
  destruct (write_chunk_stores (channels := Samples.chunk_128k)
              (crypto := Samples.zero_keystream) Samples.opened_file
              [x01; x02] 1 false 7
              {| closed := false; notified := [0] |} 2
              [[x4f; x67; x67; x53]; []]
              (AesDecrypt
                 {| AesAudioDecrypt.key := Samples.zero_key;
                    AesAudioDecrypt.decrypt_count := 2;
                    AesAudioDecrypt.decrypt_total_time := 12 |})
              [x01; x02]) as (_ & H & _).
  - exists 2, [[x4f; x67; x67; x53]; []], [true; false], [true; false],
      {| closed := false; notified := [0] |}.
    repeat split; reflexivity.
  - reflexivity.
  - reflexivity.
  - reflexivity.
  - reflexivity.
  - cbv. split; [discriminate | reflexivity].
  - vm_compute. reflexivity.
  - exact H.
Defined.

(** A chunk that the file does not have. *)
Lemma write_chunk_raises_witness :
  _buffer
    (write_chunk (channels := Samples.chunk_128k)
       (crypto := Samples.zero_keystream) Samples.opened_file
       [x01; x02] 5 false 7).1
  = Some [[x4f; x67; x67; x53]; []]
  /\ _audioDecrypt
       (write_chunk (channels := Samples.chunk_128k)
          (crypto := Samples.zero_keystream) Samples.opened_file
          [x01; x02] 5 false 7).1
     = AesDecrypt
         {| AesAudioDecrypt.key := Samples.zero_key;
            AesAudioDecrypt.decrypt_count := 2;
            AesAudioDecrypt.decrypt_total_time := 12 |}.
Proof.
  destruct (write_chunk_raises (channels := Samples.chunk_128k)
              (crypto := Samples.zero_keystream) Samples.opened_file
              [x01; x02] 5 false 7
              {| closed := false; notified := [0] |} 2 IndexError)
    as (_ & Hd & Hb & _).
  - exists 2, [[x4f; x67; x67; x53]; []], [true; false], [true; false],
      {| closed := false; notified := [0] |}.
    repeat split; reflexivity.
  - reflexivity.
  - reflexivity.
  - reflexivity.
  - vm_compute. reflexivity.
  - split; [exact Hb|]. etransitivity; [exact Hd|]. vm_compute. reflexivity.
Defined.

(** The sample file is what the constructor returns for a probe that
    reports 131073 bytes. *)
Lemma Streamer_init_first_chunk_witness :
  stream Samples.opened_file = Ok {| closed := false; notified := [0] |}.
Proof.
  destruct (Streamer_init_first_chunk (channels := Samples.chunk_128k)
              (crypto := Samples.zero_keystream)
              (session := Samples.probe_session "131073")
              (File [x01]) Samples.signed_url
              (AesDecrypt (AesAudioDecrypt.new Samples.zero_key)) 5
              Samples.opened_file)
    as (u & body & n & data & _ & _ & _ & _ & _ & _ & _ & _ & H & _).
  - vm_compute. reflexivity.
  - exact H.
Defined.

Lemma served_keeps_shape_witness : is_Some (_size Samples.opened_file).
Proof.
  destruct (served_keeps_shape (channels := Samples.chunk_128k)
              (crypto := Samples.zero_keystream)
              (session := Samples.probe_session "131073")
              Samples.opened_file) as (_ & _ & H & _).
  - apply (served_init (channels := Samples.chunk_128k)
             (crypto := Samples.zero_keystream)
             (session := Samples.probe_session "131073")
             (File [x01]) Samples.signed_url
             (AesDecrypt (AesAudioDecrypt.new Samples.zero_key)) 5).
    vm_compute. reflexivity.
  - exact H.
Defined.

(** The server answers the request for the second chunk with 404. *)
Lemma request_chunk_refused_witness :
  request_chunk (channels := Samples.chunk_128k)
    (crypto := Samples.zero_keystream)
    (session := Samples.answering (Samples.response 404 None []))
    Samples.opened_file 1 7
  = (Samples.opened_file, Raise (IOError (VInt 404))).
Proof.
  destruct (request_chunk_refused (channels := Samples.chunk_128k)
              (crypto := Samples.zero_keystream)
              (session := Samples.answering (Samples.response 404 None []))
              Samples.opened_file 1 7
              "https://cdn.example/audio/1?__token__=exp=1000~hmac=aa")
    as (H & _).
  - reflexivity.
  - apply H. discriminate.
Defined.


End StreamerMoreFacts.

(** ** CdnManager.stream_file and CdnManager.stream_external_episode *)

Module FactoryFacts.
Import CdnManager.
Import CdnUrlFacts AesMoreFacts CdnUrlMoreFacts StreamerMoreFacts.

Section Factory.
Context {channels : ChannelManager} {crypto : Cryptodome} {urllib : UrlLib}
  {session : Session}.

(** The caller gets a [Streamer] only when both constructors return. *)
Lemma construct_returns stream_id (cdn_url : effect CdnUrl unit) audio_decrypt
    elapsed_ns s :
  construct stream_id cdn_url audio_decrypt elapsed_ns = Ok s ->
  outcome cdn_url = Ok tt
  /\ Streamer_init stream_id (after cdn_url) audio_decrypt elapsed_ns = (s, Ok tt).
Proof.
  unfold construct. destruct (outcome cdn_url) as [[]|e]; [|done].
  destruct (Streamer_init _ _ _ _) as [s' [[]|e]]; [|done].
  by intros [= <-].
Qed.


(** The [Streamer] that [stream_external_episode] returns streams that
    episode from the URL it was given, and that URL never expires: [url]
    returns it at any time without calling the resolver. *)
Theorem stream_external_episode_result (episode_gid external_url : string)
    elapsed_ns s :
  stream_external_episode episode_gid external_url elapsed_ns = Ok s ->
  served s
  /\ _streamId s = Episode episode_gid
  /\ _cdnUrl s = {| __fileId := None; _expiration := Some (-1);
                    _url := Some external_url |}
  /\ forall now_ms,
       url (_cdnUrl s) now_ms
       = {| after := _cdnUrl s; outcome := Ok (UrlString external_url);
            logged := []; resolved := [] |}.
Proof.
  unfold stream_external_episode. intros [Hc Hs]%construct_returns.
  split; [by eapply served_init|].
  apply Streamer_init_returns in Hs
    as (u' & body & size & q & d & data & _ & _ & _ & _ & _ & _ & ->).
  splits; done.
Qed.

End Factory.


(** The sample episode, asked for its URL long after it was opened. *)
Lemma stream_external_episode_result_witness :
  outcome
    (url (session := Samples.probe_session "131073")
       (_cdnUrl Samples.opened_episode) 4102444800000)
  = Ok (UrlString "https://host.example/episode.mp3").
Proof.
  destruct (stream_external_episode_result (channels := Samples.chunk_128k)
              (crypto := Samples.zero_keystream)
              (urllib := Samples.plain_urls)
              (session := Samples.probe_session "131073")
              "4rOoJ6Egrf8K2IrywzwOMk" "https://host.example/episode.mp3" 5
              Samples.opened_episode) as (_ & _ & _ & H).
  - vm_compute. reflexivity.
  - rewrite H. reflexivity.
Defined.

End FactoryFacts.
